(** * serverless-image-handler: the Lambda entry point [index.js]

    A shallow embedding of [source/image-handler/index.js] and the
    properties of its orchestration layer: the lazily loaded signing
    secret, the header composer, the fallback image and the two JSON error
    responses.

    Modelling conventions.
    - A JavaScript string is a [string]: one [ascii] per UTF-16 code unit,
      for code units below 256.
    - A JavaScript value is a [jsval]: the values of JSON and [undefined].
      Numbers are integers; [safe_integers] says that they are of the
      size JavaScript holds exactly and prints digit by digit.  An object
      is the list of its own enumerable properties in enumeration order,
      none of them callable; a header object is the finite map of its own
      properties.
    - [process.env] is a finite map from names to strings.
    - The asynchronous collaborators ([getParameter], [setup], [process],
      [getObject]) are oracles of a [World]: each call either resolves
      with a value or rejects with a thrown value, which can be any
      value, [undefined] and [null] included.  [await] of a rejected
      promise throws; invocations are run one after the other.  An answer
      of the wrong shape (no [Parameter], no [Body]) throws where it is
      read, inside the same [try] as the call: it counts as a rejection.
    - The constructors of [ImageRequest] and [ImageHandler] only store
      their arguments.
    - Effects are threaded through a state-and-exception monad [M]; the
      state holds [this.secretKey] (a property of [module.exports], which
      lives as long as the process) and the list of external calls made so
      far.  [console.log] and [console.error] are not part of the model. *)

From Stdlib Require Import ZArith Ascii String List DecimalString Sorted.
From stdpp Require Import base option list strings gmap fin_maps.

Set Warnings "-register-all".
Local Open Scope string_scope.
Local Open Scope Z_scope.

(** ** JavaScript values *)

Inductive jsval : Type :=
| JUndefined
| JNull
| JBool (b : bool)
| JNum (n : Z)
| JStr (s : string)
| JArr (elems : list jsval)
| JObj (props : list (string * jsval)).

(** An object seen as its property list. *)
Abbreviation jsobj := (list (string * jsval)).

(** ToBoolean: [undefined], [null], [false], [0] and the empty string are
    falsy, everything else (every object) is truthy. *)
Definition truthy (v : jsval) : bool :=
  match v with
  | JUndefined | JNull => false
  | JBool b => b
  | JNum n => negb (n =? 0)
  | JStr s => negb (String.eqb s EmptyString)
  | JArr _ | JObj _ => true
  end.

(** [o[k]] on an object: the property's value, [undefined] when absent. *)
Fixpoint get_prop (o : jsobj) (k : string) : jsval :=
  match o with
  | [] => JUndefined
  | (k', v) :: o' => if String.eqb k' k then v else get_prop o' k
  end.

(** The built-in [Object.prototype.hasOwnProperty], applied to [v] and
    [k]; a primitive or an array has no own property with a name such as
    [elb].  Whether [v.hasOwnProperty] reaches the built-in is the matter
    of [isAlb_throws] below. *)
Definition hasOwnProperty (v : jsval) (k : string) : bool :=
  match v with
  | JObj o => existsb (fun p => String.eqb (fst p) k) o
  | _ => false
  end.

(** ** Strings: whitespace, [replace], [trim] *)

(** The class [\s] of a regular expression, among code units below 256:
    TAB, LF, VT, FF, CR, SPACE and NBSP. *)
Definition is_space (c : ascii) : bool :=
  let n := N_of_ascii c in
  ((9 <=? n) && (n <=? 13) || (n =? 32) || (n =? 160))%N.

(** [s.replace(/\s/, '')]: the pattern has no [g] flag, so only the first
    match is removed. *)
Fixpoint replace_first_space (s : string) : string :=
  match s with
  | EmptyString => EmptyString
  | String c s' => if is_space c then s' else String c (replace_first_space s')
  end.

Fixpoint trim_start (s : string) : string :=
  match s with
  | EmptyString => EmptyString
  | String c s' => if is_space c then trim_start s' else s
  end.

Definition rev_string (s : string) : string :=
  string_of_list_ascii (rev (list_ascii_of_string s)).

(** [s.trim()]. *)
Definition trim (s : string) : string :=
  rev_string (trim_start (rev_string (trim_start s))).

(** ** [JSON.stringify] *)

Definition dquote : string := String "034"%char EmptyString.
Definition backslash : string := String "092"%char EmptyString.

Definition hex_digit (n : N) : ascii :=
  ascii_of_N (if (n <? 10)%N then 48 + n else 87 + n)%N.

(** QuoteJSONString on one code unit. *)
Definition json_escape_char (c : ascii) : string :=
  let n := N_of_ascii c in
  if (n =? 34)%N then backslash ++ dquote
  else if (n =? 92)%N then backslash ++ backslash
  else if (n =? 8)%N then backslash ++ "b"
  else if (n =? 9)%N then backslash ++ "t"
  else if (n =? 10)%N then backslash ++ "n"
  else if (n =? 12)%N then backslash ++ "f"
  else if (n =? 13)%N then backslash ++ "r"
  else if (n <? 32)%N then
    backslash ++ "u00" ++
      String (hex_digit (n / 16)) (String (hex_digit (n mod 16)) EmptyString)
  else String c EmptyString.

Fixpoint json_escape (s : string) : string :=
  match s with
  | EmptyString => EmptyString
  | String c s' => json_escape_char c ++ json_escape s'
  end.

Definition json_quote (s : string) : string :=
  dquote ++ json_escape s ++ dquote.

(** Number::toString on an integer below 2^53 in size: its digits.
    (Larger numbers are rounded, and from 10^21 printed with an exponent:
    see [safe_integers].) *)
Definition json_number (n : Z) : string :=
  NilZero.string_of_int (Z.to_int n).

Definition join_comma (parts : list string) : string :=
  match parts with
  | [] => EmptyString
  | p :: ps => fold_left (fun acc x => acc ++ "," ++ x) ps p
  end.

(** SerializeJSONProperty: [None] stands for [undefined], which drops a
    property from an object and prints as [null] inside an array. *)
Fixpoint json_value (v : jsval) : option string :=
  match v with
  | JUndefined => None
  | JNull => Some "null"
  | JBool true => Some "true"
  | JBool false => Some "false"
  | JNum n => Some (json_number n)
  | JStr s => Some (json_quote s)
  | JArr l =>
      let fix elems (l : list jsval) : list string :=
        match l with
        | [] => []
        | x :: l' => default "null" (json_value x) :: elems l'
        end in
      Some ("[" ++ join_comma (elems l) ++ "]")
  | JObj o =>
      let fix members (o : jsobj) : list string :=
        match o with
        | [] => []
        | (k, x) :: o' =>
            match json_value x with
            | Some t => (json_quote k ++ ":" ++ t) :: members o'
            | None => members o'
            end
        end in
      Some ("{" ++ join_comma (members o) ++ "}")
  end.

(** [JSON.stringify(o)] for an object [o]: always a string. *)
Definition JSON_stringify (o : jsobj) : string :=
  default "undefined" (json_value (JObj o)).


(** ** [Buffer.prototype.toString('base64')] *)

Definition base64_alphabet : string :=
  "ABCDEFGHIJKLMNOPQRSTUVWXYZabcdefghijklmnopqrstuvwxyz0123456789+/".

Definition b64_digit (n : N) : ascii :=
  default "="%char (String.get (N.to_nat n) base64_alphabet).

Fixpoint base64_bytes (l : list ascii) : string :=
  match l with
  | [] => EmptyString
  | [a] =>
      let x := N_of_ascii a in
      String (b64_digit (x / 4))
        (String (b64_digit ((x mod 4) * 16)) "==")
  | [a; b] =>
      let x := N_of_ascii a in
      let y := N_of_ascii b in
      String (b64_digit (x / 4))
        (String (b64_digit ((x mod 4) * 16 + y / 16))
           (String (b64_digit ((y mod 16) * 4)) "="))
  | a :: b :: c :: l' =>
      let x := N_of_ascii a in
      let y := N_of_ascii b in
      let z := N_of_ascii c in
      String (b64_digit (x / 4))
        (String (b64_digit ((x mod 4) * 16 + y / 16))
           (String (b64_digit ((y mod 16) * 4 + z / 64))
              (String (b64_digit (z mod 64)) (base64_bytes l'))))
  end%N.

(** [buf.toString('base64')] for a buffer holding the bytes of [s]. *)
Definition toString_base64 (s : string) : string :=
  base64_bytes (list_ascii_of_string s).

(** ** Configuration: [process.env] *)

(** [process.env.NAME]: a string, or [undefined] when the variable is not
    set. *)
Definition getenv (env : gmap string string) (name : string) : jsval :=
  from_option JStr JUndefined (env !! name).

(** [process.env.NAME === 'Yes']. *)
Definition env_is_yes (env : gmap string string) (name : string) : bool :=
  bool_decide (env !! name = Some "Yes").

(** [process.env.NAME && process.env.NAME.replace(/\s/, '') !== '']
    (index.js, lines 52-55). *)
Definition env_not_blank (env : gmap string string) (name : string) : bool :=
  match env !! name with
  | Some s =>
      negb (String.eqb s EmptyString)
      && negb (String.eqb (replace_first_space s) EmptyString)
  | None => false
  end.

(** The guard of the default fallback image (index.js, lines 51-55). *)
Definition fallback_enabled (env : gmap string string) : bool :=
  env_is_yes env "ENABLE_DEFAULT_FALLBACK_IMAGE"
  && env_not_blank env "DEFAULT_FALLBACK_IMAGE_BUCKET"
  && env_not_blank env "DEFAULT_FALLBACK_IMAGE_KEY".

(** ** The header composer (index.js, lines 101-117) *)

Definition getResponseHeaders (env : gmap string string) (isErr isAlb : bool)
  : gmap string jsval :=
  let corsEnabled := env_is_yes env "CORS_ENABLED" in
  let headers : gmap string jsval :=
    <["Access-Control-Allow-Headers" := JStr "Content-Type, Authorization"]>
      (<["Access-Control-Allow-Methods" := JStr "GET"]> ∅) in
  let headers :=
    if negb isAlb
    then <["Access-Control-Allow-Credentials" := JBool true]> headers
    else headers in
  let headers :=
    if corsEnabled
    then <["Access-Control-Allow-Origin" := getenv env "CORS_ORIGIN"]> headers
    else headers in
  let headers :=
    if isErr
    then <["Content-Type" := JStr "application/json"]> headers
    else headers in
  headers.

(** ** Data exchanged with the collaborators *)

(** The request object that [ImageRequest.setup] resolves with: the four
    fields the handler reads, the optional custom headers, and whatever
    else the object carries for [ImageHandler.process]. *)
Module Request.
Record t : Type := mk {
  ContentType : jsval;
  Expires : jsval;
  LastModified : jsval;
  CacheControl : jsval;
  headers : option (gmap string jsval);
  others : jsobj
}.
End Request.

(** What [s3.getObject(...).promise()] resolves with. *)
Module S3Object.
Record t : Type := mk {
  ContentType : jsval;
  LastModified : jsval;
  Body : string
}.
End S3Object.

(** The object the handler returns. *)
Module Response.
Record t : Type := mk {
  statusCode : jsval;
  isBase64Encoded : bool;
  headers : gmap string jsval;
  body : string
}.
End Response.

(** A settled promise.  The reason of a rejection is whatever was thrown:
    any value. *)
Inductive settled (A : Type) : Type :=
| Resolved (a : A)
| Rejected (e : jsval).
Arguments Resolved {A} a.
Arguments Rejected {A} e.

(** The external calls an invocation can make. *)
Inductive Call : Type :=
| CallGetParameter (Name : jsval)
| CallSetup (secretKey : jsval) (event : jsobj)
| CallProcess (request : Request.t)
| CallGetObject (Bucket Key : jsval).

(** The environment of one invocation: the configuration and the way each
    collaborator answers.  [getParameter] gives [response.Parameter.Value]. *)
Record World : Type := {
  env : gmap string string;
  getParameter : jsval → settled jsval;
  setup : jsval → jsobj → settled Request.t;
  process : Request.t → settled string;
  getObject : jsval → jsval → settled S3Object.t
}.

(** ** Process state and the monad of effects *)

Record State : Type := {
  secretKey : jsval;
  calls : list Call
}.

Definition initial_state : State := {| secretKey := JUndefined; calls := [] |}.

Definition M (A : Type) : Type := State → settled A * State.

#[local] Instance M_ret : MRet M := λ A a s, (Resolved a, s).

#[local] Instance M_bind : MBind M := λ A B f m s,
  match m s with
  | (Resolved a, s') => f a s'
  | (Rejected e, s') => (Rejected e, s')
  end.

Definition throw {A : Type} (e : jsval) : M A := λ s, (Rejected e, s).

(** [try { m } catch (e) { h e }]. *)
Definition try_catch {A : Type} (m : M A) (h : jsval → M A) : M A := λ s,
  match m s with
  | (Resolved a, s') => (Resolved a, s')
  | (Rejected e, s') => h e s'
  end.

Definition record_call (c : Call) (s : State) : State :=
  {| secretKey := secretKey s; calls := calls s ++ [c] |}.

(** [await] of an external call: the call is recorded, a rejection throws. *)
Definition await {A : Type} (c : Call) (r : settled A) : M A := λ s,
  (r, record_call c s).

Definition read_secretKey : M jsval := λ s, (Resolved (secretKey s), s).

Definition write_secretKey (v : jsval) : M unit := λ s,
  (Resolved tt, {| secretKey := v; calls := calls s |}).

(** ** [ensureSecretKeyLoaded] (index.js, lines 122-134) *)

Definition ensureSecretKeyLoaded (w : World) : M unit :=
  sk ← read_secretKey;
  if truthy sk then mret tt
  else if negb (env_is_yes (env w) "ENABLE_SIGNATURE") then mret tt
  else
    try_catch
      (let Name := getenv (env w) "PS_PARAMETER_NAME" in
       Value ← await (CallGetParameter Name) (getParameter w Name);
       write_secretKey Value)
      (λ err, throw err).

(** ** [exports.handler] (index.js, lines 14-92) *)

(** A TypeError as the engine throws it, seen as a thrown value: an
    object without own enumerable properties. *)
Definition TypeError : jsval := JObj [].

(** [event.requestContext && event.requestContext.hasOwnProperty('elb')],
    as a condition: the value of line 21 when the call goes through. *)
Definition isAlb (event : jsobj) : bool :=
  let requestContext := get_prop event "requestContext" in
  truthy requestContext && hasOwnProperty requestContext "elb".

(** Line 21 looks [hasOwnProperty] up on [event.requestContext] itself.
    An own property of that name hides the built-in, and no value of an
    event is callable: the call then throws a TypeError. *)
Definition isAlb_throws (event : jsobj) : bool :=
  let requestContext := get_prop event "requestContext" in
  truthy requestContext && hasOwnProperty requestContext "hasOwnProperty".

(** Line 21, evaluated. *)
Definition eval_isAlb (event : jsobj) : M bool :=
  if isAlb_throws event then throw TypeError else mret (isAlb event).

(** What the [catch] block can read of the value it caught.  [err.status]
    throws a TypeError when [err] is [undefined] or [null]; on an object it
    reads the property; on any other primitive and on an array there is no
    [status], as on an object without properties, and [JSON.stringify(err)]
    is not reached. *)
Definition thrown_properties (err : jsval) : option jsobj :=
  match err with
  | JUndefined | JNull => None
  | JObj o => Some o
  | JBool _ | JNum _ | JStr _ | JArr _ => Some []
  end.

(** The first [err.status] of a [return]. *)
Definition read_thrown (err : jsval) : M jsobj :=
  match thrown_properties err with
  | Some o => mret o
  | None => throw TypeError
  end.

(** [o[key] = value] for a computed [key] on a plain object, as a map of
    own properties.  [__proto__] is an accessor inherited from
    [Object.prototype]: an assignment through it sets the prototype, or does
    nothing, and creates no own property. *)
Definition set_prop (o : gmap string jsval) (key : string) (value : jsval)
  : gmap string jsval :=
  if String.eqb key "__proto__" then o else <[key := value]> o.

(** The [for (let key in request.headers)] loop of lines 36-38. *)
Definition apply_custom_headers (headers custom : gmap string jsval)
  : gmap string jsval :=
  map_fold (λ key value acc, set_prop acc key value) headers custom.

(** Lines 28-46: the response after a successful [process]. *)
Definition success_response (w : World) (alb : bool) (request : Request.t)
    (processedRequest : string) : Response.t :=
  let headers := getResponseHeaders (env w) false alb in
  let headers := <["Content-Type" := Request.ContentType request]> headers in
  let headers := <["Expires" := Request.Expires request]> headers in
  let headers := <["Last-Modified" := Request.LastModified request]> headers in
  let headers := <["Cache-Control" := Request.CacheControl request]> headers in
  let headers :=
    match Request.headers request with
    | Some custom => apply_custom_headers headers custom
    | None => headers
    end in
  {| Response.statusCode := JNum 200;
     Response.isBase64Encoded := true;
     Response.headers := headers;
     Response.body := processedRequest |}.

(** Lines 60-70: the response that carries the default fallback image. *)
Definition fallback_response (w : World) (alb : bool) (err : jsobj)
    (defaultFallbackImage : S3Object.t) : Response.t :=
  let headers := getResponseHeaders (env w) false alb in
  let headers :=
    <["Content-Type" := S3Object.ContentType defaultFallbackImage]> headers in
  let headers :=
    <["Last-Modified" := S3Object.LastModified defaultFallbackImage]> headers in
  let headers := <["Cache-Control" := JStr "max-age=31536000,public"]> headers in
  {| Response.statusCode :=
       if truthy (get_prop err "status") then get_prop err "status" else JNum 500;
     Response.isBase64Encoded := true;
     Response.headers := headers;
     Response.body := toString_base64 (S3Object.Body defaultFallbackImage) |}.

(** Lines 76-90: the two JSON error responses. *)
Definition error_response (w : World) (alb : bool) (err : jsobj) : Response.t :=
  if truthy (get_prop err "status") then
    {| Response.statusCode := get_prop err "status";
       Response.isBase64Encoded := false;
       Response.headers := getResponseHeaders (env w) true alb;
       Response.body := JSON_stringify err |}
  else
    {| Response.statusCode := JNum 500;
       Response.isBase64Encoded := false;
       Response.headers := getResponseHeaders (env w) true alb;
       Response.body :=
         JSON_stringify
           [("message", JStr "Internal error. Please contact the system administrator.");
            ("code", JStr "InternalError");
            ("status", JNum 500)] |}.

(** Lines 51-74: the attempt to serve the default fallback image.  [Some r]
    is the [return r] of line 65; [None] falls through to line 76, either
    because the guard is false or because the inner [try] caught: a failed
    fetch, or the TypeError of [err.status] at line 66. *)
Definition try_fallback (w : World) (alb : bool) (err : jsval)
  : M (option Response.t) :=
  if fallback_enabled (env w) then
    try_catch
      (let bucket := getenv (env w) "DEFAULT_FALLBACK_IMAGE_BUCKET" in
       let objectKey := getenv (env w) "DEFAULT_FALLBACK_IMAGE_KEY" in
       defaultFallbackImage ←
         await (CallGetObject bucket objectKey) (getObject w bucket objectKey);
       properties ← read_thrown err;
       mret (Some (fallback_response w alb properties defaultFallbackImage)))
      (λ error, mret None)
  else mret None.

(** Lines 48-91: the [catch (err)] block of the handler.  The [err.status]
    of line 76 is outside the inner [try]: its TypeError leaves the
    handler. *)
Definition handle_error (w : World) (alb : bool) (err : jsval) : M Response.t :=
  fallback ← try_fallback w alb err;
  match fallback with
  | Some response => mret response
  | None =>
      properties ← read_thrown err;
      mret (error_response w alb properties)
  end.

(** Lines 24-46: the [try] block of the handler. *)
Definition process_request (w : World) (alb : bool) (sk : jsval) (event : jsobj)
  : M Response.t :=
  request ← await (CallSetup sk event) (setup w sk event);
  processedRequest ← await (CallProcess request) (process w request);
  mret (success_response w alb request processedRequest).

Definition handler (w : World) (event : jsobj) : M Response.t :=
  ensureSecretKeyLoaded w;;
  sk ← read_secretKey;
  alb ← eval_isAlb event;
  try_catch (process_request w alb sk event) (handle_error w alb).

(** A process serves its invocations one after the other; the state is
    handed from each to the next. *)
Fixpoint serve (invocations : list (World * jsobj)) (s : State)
  : list (settled Response.t) * State :=
  match invocations with
  | [] => ([], s)
  | (w, event) :: rest =>
      let '(r, s') := handler w event s in
      let '(rs, s'') := serve rest s' in
      (r :: rs, s'')
  end.

(** ** Vocabulary of the properties *)

(** The parsing and processing stage of an invocation fails with [err]:
    either [setup] rejects, or it resolves and [process] rejects. *)
Definition fails_with (w : World) (sk : jsval) (event : jsobj) (err : jsval)
  : Prop :=
  setup w sk event = Rejected err
  ∨ ∃ request, setup w sk event = Resolved request
               ∧ process w request = Rejected err.

(** The fetch of the fallback object, as the handler issues it. *)
Definition fallback_fetch (w : World) : settled S3Object.t :=
  getObject w (getenv (env w) "DEFAULT_FALLBACK_IMAGE_BUCKET")
              (getenv (env w) "DEFAULT_FALLBACK_IMAGE_KEY").

Definition fallback_call (w : World) : Call :=
  CallGetObject (getenv (env w) "DEFAULT_FALLBACK_IMAGE_BUCKET")
                (getenv (env w) "DEFAULT_FALLBACK_IMAGE_KEY").

(** The fetch of the secret, as [ensureSecretKeyLoaded] issues it. *)
Definition secret_fetch (w : World) : settled jsval :=
  getParameter w (getenv (env w) "PS_PARAMETER_NAME").

Definition secret_call (w : World) : Call :=
  CallGetParameter (getenv (env w) "PS_PARAMETER_NAME").

Definition is_secret_call (c : Call) : bool :=
  match c with CallGetParameter _ => true | _ => false end.

Definition is_storage_call (c : Call) : bool :=
  match c with CallGetObject _ _ => true | _ => false end.

(** The condition the specification gives for the fallback: the flag is
    set and bucket and key are present and non-empty once trimmed. *)
Definition present_after_trim (env : gmap string string) (name : string) : bool :=
  match env !! name with
  | Some s => negb (String.eqb (trim s) EmptyString)
  | None => false
  end.

Definition fallback_configured (env : gmap string string) : bool :=
  env_is_yes env "ENABLE_DEFAULT_FALLBACK_IMAGE"
  && present_after_trim env "DEFAULT_FALLBACK_IMAGE_BUCKET"
  && present_after_trim env "DEFAULT_FALLBACK_IMAGE_KEY".

(** The metadata layer of a success response, as a map of its own. *)
Definition metadata_headers (request : Request.t) : gmap string jsval :=
  <["Cache-Control" := Request.CacheControl request]>
    (<["Last-Modified" := Request.LastModified request]>
       (<["Expires" := Request.Expires request]>
          (<["Content-Type" := Request.ContentType request]> ∅))).

(** The three layers of a success response in the order the specification
    gives them; [∪] prefers its left argument. *)
Definition custom_headers (request : Request.t) : gmap string jsval :=
  default ∅ (Request.headers request).

Definition layered_headers (w : World) (alb : bool) (request : Request.t)
  : gmap string jsval :=
  custom_headers request
  ∪ (metadata_headers request ∪ getResponseHeaders (env w) false alb).

(** Writes [s] with every apostrophe turned into a double quote. *)
Fixpoint with_dquotes (s : string) : string :=
  match s with
  | EmptyString => EmptyString
  | String c s' =>
      String (if Ascii.eqb c "'"%char then "034"%char else c) (with_dquotes s')
  end.


(** ** Sample worlds *)

(** No configuration; every collaborator rejects. *)
Definition silent_world : World :=
  {| env := ∅;
     getParameter := λ _, Rejected (JObj [("code", JStr "ParameterNotFound")]);
     setup := λ _ _, Rejected (JObj [("status", JNum 404);
                                     ("code", JStr "NoSuchKey");
                                     ("message", JStr "The image does not exist.")]);
     process := λ _, Rejected (JObj [("message", JStr "boom")]);
     getObject := λ _ _, Rejected (JObj [("code", JStr "NoSuchBucket")]) |}.

Definition with_env (e : gmap string string) (w : World) : World :=
  {| env := e; getParameter := getParameter w; setup := setup w;
     process := process w; getObject := getObject w |}.

(** Signing is on and the parameter store refuses. *)
Definition signing_world : World :=
  with_env (<["ENABLE_SIGNATURE" := "Yes"]> (<["PS_PARAMETER_NAME" := "signing-key"]> ∅))
           silent_world.

(** Signing is on and the parameter store answers. *)
Definition signed_world : World :=
  {| env := env signing_world;
     getParameter := λ _, Resolved (JStr "s3cr3t");
     setup := setup silent_world; process := process silent_world;
     getObject := getObject silent_world |}.

(** The fallback is switched on with a bucket made of two spaces. *)
Definition blank_bucket_world : World :=
  with_env (<["ENABLE_DEFAULT_FALLBACK_IMAGE" := "Yes"]>
              (<["DEFAULT_FALLBACK_IMAGE_BUCKET" := "  "]>
                 (<["DEFAULT_FALLBACK_IMAGE_KEY" := "fallback.png"]> ∅)))
           silent_world.

Definition sample_image : S3Object.t :=
  {| S3Object.ContentType := JStr "image/png";
     S3Object.LastModified := JStr "Mon, 01 Jan 2024 00:00:00 GMT";
     S3Object.Body := "Man" |}.

(** The fallback is configured and the object is there. *)
Definition fallback_world : World :=
  {| env := <["ENABLE_DEFAULT_FALLBACK_IMAGE" := "Yes"]>
              (<["DEFAULT_FALLBACK_IMAGE_BUCKET" := "assets"]>
                 (<["DEFAULT_FALLBACK_IMAGE_KEY" := "fallback.png"]>
                    (<["CORS_ENABLED" := "Yes"]>
                       (<["CORS_ORIGIN" := "*"]> ∅))));
     getParameter := getParameter silent_world;
     setup := setup silent_world;
     process := process silent_world;
     getObject := λ _ _, Resolved sample_image |}.

Definition sample_request : Request.t :=
  {| Request.ContentType := JStr "image/jpeg";
     Request.Expires := JUndefined;
     Request.LastModified := JStr "Mon, 01 Jan 2024 00:00:00 GMT";
     Request.CacheControl := JStr "max-age=3600";
     Request.headers :=
       Some (<["Access-Control-Allow-Credentials" := JStr "true"]>
               (<["Cache-Control" := JStr "no-store"]> ∅));
     Request.others := [] |}.

(** Parsing and processing succeed; the request has custom headers. *)
Definition working_world : World :=
  {| env := ∅;
     getParameter := getParameter silent_world;
     setup := λ _ _, Resolved sample_request;
     process := λ _, Resolved "TWFu";
     getObject := getObject silent_world |}.

Definition gateway_event : jsobj :=
  [("path", JStr "/image.jpg"); ("requestContext", JObj [("stage", JStr "prod")])].

Definition alb_event : jsobj :=
  [("path", JStr "/image.jpg");
   ("requestContext", JObj [("elb", JObj [("targetGroupArn", JStr "arn")])])].

(** ** Vocabulary of the further properties *)

(** The calls an invocation adds to the record of a process. *)
Definition new_calls (s s' : State) : list Call :=
  drop (length (calls s)) (calls s').

Definition is_setup_call (c : Call) : bool :=
  match c with CallSetup _ _ => true | _ => false end.

Definition is_process_call (c : Call) : bool :=
  match c with CallProcess _ => true | _ => false end.

(** The place of a collaborator in the handler: parameter store, parser,
    processor, object store. *)
Definition stage (c : Call) : nat :=
  match c with
  | CallGetParameter _ => 0
  | CallSetup _ _ => 1
  | CallProcess _ => 2
  | CallGetObject _ _ => 3
  end.

(** The names the composer can set, by configuration, mode and ingress. *)
Definition composed_keys (env : gmap string string) (isErr alb : bool)
  : gset string :=
  {["Access-Control-Allow-Methods"; "Access-Control-Allow-Headers"]}
  ∪ (if alb then ∅ else {["Access-Control-Allow-Credentials"]})
  ∪ (if env_is_yes env "CORS_ENABLED"
     then {["Access-Control-Allow-Origin"]} else ∅)
  ∪ (if isErr then {["Content-Type"]} else ∅).

(** A value that the guard of one fallback variable lets through: set, and
    neither empty nor one whitespace character. *)
Definition passes_guard (env : gmap string string) (name : string) : Prop :=
  ∃ c rest, env !! name = Some (String c rest)
            ∧ (is_space c = false ∨ rest ≠ EmptyString).

(** Signing is on and the parameter store refuses. *)
Definition secret_unavailable (w : World) : Prop :=
  env_is_yes (env w) "ENABLE_SIGNATURE" = true
  ∧ ∃ e, secret_fetch w = Rejected e.

(** The request with custom headers, processed by a failing processor while
    the fallback image is available. *)
Definition degraded_world : World :=
  {| env := env fallback_world;
     getParameter := getParameter silent_world;
     setup := λ _ _, Resolved sample_request;
     process := process silent_world;
     getObject := getObject fallback_world |}.

(** The fetch of the fallback object under its guard. *)
Definition fallback_calls (w : World) : list Call :=
  if fallback_enabled (env w) then [fallback_call w] else [].

(** The calls of the [try] and [catch] blocks, given the secret [sk]. *)
Definition pipeline_calls (w : World) (event : jsobj) (sk : jsval) : list Call :=
  CallSetup sk event ::
  match setup w sk event with
  | Resolved request =>
      CallProcess request ::
      match process w request with
      | Resolved _ => []
      | Rejected _ => fallback_calls w
      end
  | Rejected _ => fallback_calls w
  end.

(** The calls that follow the secret step: none when line 21 throws. *)
Definition calls_after_secret (w : World) (event : jsobj) (sk : jsval)
  : list Call :=
  if isAlb_throws event then [] else pipeline_calls w event sk.

(** The calls of one invocation, read off the configuration, the state of
    the secret, the event and the answers of the collaborators. *)
Definition expected_calls (w : World) (event : jsobj) (s : State) : list Call :=
  if truthy (secretKey s) || negb (env_is_yes (env w) "ENABLE_SIGNATURE")
  then calls_after_secret w event (secretKey s)
  else match secret_fetch w with
       | Resolved Value => secret_call w :: calls_after_secret w event Value
       | Rejected _ => [secret_call w]
       end.

(** An event whose [requestContext] has a property named [hasOwnProperty],
    as a JSON payload can. *)
Definition shadowing_event : jsobj :=
  [("path", JStr "/image.jpg");
   ("requestContext", JObj [("elb", JObj []); ("hasOwnProperty", JNum 1)])].

(** The parser rejects with [null]. *)
Definition null_world : World :=
  {| env := env fallback_world;
     getParameter := getParameter silent_world;
     setup := λ _ _, Rejected JNull;
     process := process silent_world;
     getObject := getObject fallback_world |}.

(** * Properties *)

(** ** The models of the built-ins on known inputs *)

Example json_drops_undefined :
  JSON_stringify [("message", JStr "hi"); ("x", JUndefined); ("status", JNum 500)]
  = with_dquotes "{'message':'hi','status':500}".
Proof. vm_compute. reflexivity. Qed.

Example json_escapes :
  JSON_stringify [("m", JStr ("a" ++ dquote ++ "b")); ("l", JArr [JNull; JUndefined; JBool true])]
  = "{" ++ dquote ++ "m" ++ dquote ++ ":" ++ dquote ++ "a" ++ backslash ++ dquote
        ++ "b" ++ dquote ++ "," ++ dquote ++ "l" ++ dquote ++ ":[null,null,true]}".
Proof. vm_compute. reflexivity. Qed.

Example base64_Man : toString_base64 "Man" = "TWFu".
Proof. reflexivity. Qed.

Example base64_Ma : toString_base64 "Ma" = "TWE=".
Proof. reflexivity. Qed.

Example base64_M : toString_base64 "M" = "TQ==".
Proof. reflexivity. Qed.

Example trim_both_ends : trim "  a b   " = "a b".
Proof. reflexivity. Qed.

Example replace_removes_one : replace_first_space "a b c" = "ab c".
Proof. reflexivity. Qed.

(** ** Equations of the monadic definitions *)

Ltac unfold_monad :=
  unfold mbind, mret, M_bind, M_ret, try_catch, throw, await,
    read_secretKey, write_secretKey in *.

Lemma ensureSecretKeyLoaded_eq (w : World) (s : State) :
  ensureSecretKeyLoaded w s =
  if truthy (secretKey s) then (Resolved tt, s)
  else if negb (env_is_yes (env w) "ENABLE_SIGNATURE") then (Resolved tt, s)
  else match secret_fetch w with
       | Resolved Value =>
           (Resolved tt,
            {| secretKey := Value; calls := calls s ++ [secret_call w] |})
       | Rejected e => (Rejected e, record_call (secret_call w) s)
       end.
Proof.
  unfold ensureSecretKeyLoaded, secret_fetch, secret_call. unfold_monad.
  destruct (truthy (secretKey s)); [reflexivity|].
  destruct (negb _); [reflexivity|].
  destruct (getParameter w _); reflexivity.
Qed.

Lemma eval_isAlb_eq (event : jsobj) (s : State) :
  eval_isAlb event s =
  if isAlb_throws event then (Rejected TypeError, s)
  else (Resolved (isAlb event), s).
Proof. unfold eval_isAlb. by destruct (isAlb_throws event). Qed.

Lemma read_thrown_eq (err : jsval) (s : State) :
  read_thrown err s =
  match thrown_properties err with
  | Some properties => (Resolved properties, s)
  | None => (Rejected TypeError, s)
  end.
Proof. unfold read_thrown. by destruct (thrown_properties err). Qed.

Lemma try_fallback_eq (w : World) (alb : bool) (err : jsval) (s : State) :
  try_fallback w alb err s =
  if fallback_enabled (env w) then
    match fallback_fetch w, thrown_properties err with
    | Resolved image, Some properties =>
        (Resolved (Some (fallback_response w alb properties image)),
         record_call (fallback_call w) s)
    | _, _ => (Resolved None, record_call (fallback_call w) s)
    end
  else (Resolved None, s).
Proof.
  unfold try_fallback, fallback_fetch, fallback_call.
  destruct (fallback_enabled (env w)); [|reflexivity].
  unfold try_catch, mbind, M_bind, await. rewrite read_thrown_eq.
  destruct (getObject w _ _); [|reflexivity].
  by destruct (thrown_properties err).
Qed.

Lemma handle_error_eq (w : World) (alb : bool) (err : jsval) (s : State) :
  handle_error w alb err s =
  let s' := if fallback_enabled (env w)
            then record_call (fallback_call w) s else s in
  match thrown_properties err with
  | None => (Rejected TypeError, s')
  | Some properties =>
      if fallback_enabled (env w) then
        match fallback_fetch w with
        | Resolved image =>
            (Resolved (fallback_response w alb properties image), s')
        | Rejected _ => (Resolved (error_response w alb properties), s')
        end
      else (Resolved (error_response w alb properties), s')
  end.
Proof.
  unfold handle_error. unfold mbind at 1. unfold M_bind.
  rewrite try_fallback_eq. cbv zeta.
  destruct (fallback_enabled (env w)).
  - destruct (fallback_fetch w) as [image|e];
      destruct (thrown_properties err) as [properties|] eqn:Herr;
      unfold mbind, M_bind, mret, M_ret; rewrite ?read_thrown_eq, ?Herr;
      reflexivity.
  - unfold mbind, M_bind, mret, M_ret. rewrite read_thrown_eq.
    by destruct (thrown_properties err).
Qed.

Lemma process_request_eq (w : World) (alb : bool) (sk : jsval) (event : jsobj)
    (s : State) :
  process_request w alb sk event s =
  let s1 := record_call (CallSetup sk event) s in
  match setup w sk event with
  | Rejected err => (Rejected err, s1)
  | Resolved request =>
      let s2 := record_call (CallProcess request) s1 in
      match process w request with
      | Rejected err => (Rejected err, s2)
      | Resolved image =>
          (Resolved (success_response w alb request image), s2)
      end
  end.
Proof.
  unfold process_request. unfold_monad. cbv zeta.
  destruct (setup w sk event) as [request|err]; [|reflexivity].
  destruct (process w request); reflexivity.
Qed.

Lemma handler_eq (w : World) (event : jsobj) (s : State) :
  handler w event s =
  match ensureSecretKeyLoaded w s with
  | (Resolved _, s1) =>
      if isAlb_throws event then (Rejected TypeError, s1)
      else
        match process_request w (isAlb event) (secretKey s1) event s1 with
        | (Resolved r, s2) => (Resolved r, s2)
        | (Rejected err, s2) => handle_error w (isAlb event) err s2
        end
  | (Rejected e, s1) => (Rejected e, s1)
  end.
Proof.
  unfold handler. unfold mbind, M_bind, read_secretKey.
  destruct (ensureSecretKeyLoaded w s) as [[[]|e] s1]; [|reflexivity].
  rewrite eval_isAlb_eq. by destruct (isAlb_throws event).
Qed.

(** The catch block answers unless the value it caught is [undefined] or
    [null]. *)
Lemma handle_error_answers (w : World) (alb : bool) (err : jsval)
    (properties : jsobj) (s : State) :
  thrown_properties err = Some properties →
  ∃ r s', handle_error w alb err s = (Resolved r, s').
Proof.
  intros Herr. rewrite handle_error_eq, Herr. cbv zeta.
  destruct (fallback_enabled (env w)); [destruct (fallback_fetch w)|]; eauto.
Qed.

(** What the [try] block throws is a failure of parsing or processing. *)
Lemma process_request_rejects (w : World) (alb : bool) (sk : jsval)
    (event : jsobj) (s s2 : State) (err : jsval) :
  process_request w alb sk event s = (Rejected err, s2) →
  fails_with w sk event err.
Proof.
  rewrite process_request_eq. cbv zeta. unfold fails_with.
  destruct (setup w sk event) as [request|err'] eqn:Hsetup.
  - destruct (process w request) as [image|err'] eqn:Hprocess;
      intros ?; simplify_eq. right. eauto.
  - intros ?; simplify_eq. by left.
Qed.

(** Once the secret step is over and line 21 has gone through, the handler
    answers, unless parsing or processing throws [undefined] or [null]. *)
Lemma handler_answers_after_secret (w : World) (event : jsobj) (s s1 : State) :
  ensureSecretKeyLoaded w s = (Resolved tt, s1) →
  isAlb_throws event = false →
  (∀ err, fails_with w (secretKey s1) event err →
          thrown_properties err ≠ None) →
  ∃ r s', handler w event s = (Resolved r, s').
Proof.
  intros Hsecret Hingress Hthrown. rewrite handler_eq, Hsecret, Hingress.
  destruct (process_request _ _ _ _ _) as [[r|err] s2] eqn:Hrun; [eauto|].
  apply process_request_rejects in Hrun. apply Hthrown in Hrun.
  destruct (thrown_properties err) as [properties|] eqn:Herr; [|done].
  by eapply handle_error_answers.
Qed.

(** Every response of the handler comes from one of its four [return]s,
    under the conditions that lead there. *)
Lemma handler_response (w : World) (event : jsobj) (s s' : State)
    (r : Response.t) :
  handler w event s = (Resolved r, s') →
  ∃ s1, ensureSecretKeyLoaded w s = (Resolved tt, s1) ∧
    isAlb_throws event = false ∧
    ((∃ request image,
        setup w (secretKey s1) event = Resolved request
        ∧ process w request = Resolved image
        ∧ r = success_response w (isAlb event) request image)
     ∨ ∃ err properties,
         fails_with w (secretKey s1) event err
         ∧ thrown_properties err = Some properties ∧
         ((∃ image, fallback_enabled (env w) = true
                    ∧ fallback_fetch w = Resolved image
                    ∧ r = fallback_response w (isAlb event) properties image)
          ∨ ((fallback_enabled (env w) = false
              ∨ ∃ e, fallback_fetch w = Rejected e)
             ∧ r = error_response w (isAlb event) properties))).
Proof.
  rewrite handler_eq.
  destruct (ensureSecretKeyLoaded w s) as [[[]|e] s1]; [|discriminate].
  destruct (isAlb_throws event); [discriminate|].
  intros H. exists s1. split; [reflexivity|]. split; [reflexivity|].
  destruct (process_request _ _ _ _ _) as [[r'|err] s2] eqn:Hrun.
  - left. rewrite process_request_eq in Hrun. cbv zeta in Hrun.
    destruct (setup w (secretKey s1) event) as [request|?] eqn:Hsetup;
      [|discriminate].
    destruct (process w request) as [image|?] eqn:Hprocess; [|discriminate].
    exists request, image. by simplify_eq.
  - right. apply process_request_rejects in Hrun.
    rewrite handle_error_eq in H. cbv zeta in H.
    destruct (thrown_properties err) as [properties|] eqn:Herr; [|discriminate].
    exists err, properties. split; [done|]. split; [done|].
    destruct (fallback_enabled (env w)); [|simplify_eq; eauto].
    destruct (fallback_fetch w); simplify_eq; eauto 10.
Qed.

(** A failure of parsing or processing hands control to the catch block. *)
Lemma handler_on_failure (w : World) (event : jsobj) (s s1 : State)
    (err : jsval) :
  ensureSecretKeyLoaded w s = (Resolved tt, s1) →
  isAlb_throws event = false →
  fails_with w (secretKey s1) event err →
  ∃ s2, handler w event s = handle_error w (isAlb event) err s2.
Proof.
  intros Hsecret Hingress Hfail.
  rewrite handler_eq, Hsecret, Hingress, process_request_eq.
  cbv zeta. destruct Hfail as [Hsetup|(request & Hsetup & Hprocess)].
  - rewrite Hsetup. eauto.
  - rewrite Hsetup, Hprocess. eauto.
Qed.


(** Runs the handler on a closed input and names the response. *)
Ltac run_handler r s' Hr :=
  match goal with
  | |- context [handler ?w ?event ?s] =>
      assert (∃ x y, handler w event s = (Resolved x, y)) as (r & s' & Hr)
        by (let Hrun := fresh in
            destruct (handler w event s) as [[?|?] ?] eqn:Hrun;
            [eauto|vm_compute in Hrun; discriminate])
  end.

(** ** C1: does every invocation end in a response? *)

(** C1, as stated, fails: with signing enabled and a parameter store that
    refuses, the failure of the secret load leaves the handler as a
    rejection; no response object is built. *)
Lemma C1_secret_failure_escapes :
  handler signing_world gateway_event initial_state
  = (Rejected (JObj [("code", JStr "ParameterNotFound")]),
     record_call (CallGetParameter (JStr "signing-key")) initial_state)
  ∧ ¬ ∃ r s', handler signing_world gateway_event initial_state = (Resolved r, s').
Proof.
  assert (H : handler signing_world gateway_event initial_state
              = (Rejected (JObj [("code", JStr "ParameterNotFound")]),
                 record_call (CallGetParameter (JStr "signing-key")) initial_state))
    by (vm_compute; reflexivity).
  split; [exact H|]. intros (r & s' & Hr). rewrite H in Hr. discriminate.
Qed.

(** C1, amended: when the secret step returns (secret already set, signing
    disabled, or fetch succeeded), the ingress test of line 21 goes
    through, and parsing and processing throw nothing that is [undefined]
    or [null], the handler returns a response whatever parsing, processing
    and the fallback fetch do.  When the secret fetch fails, the handler
    rejects with that very failure, and the secret is left as it was:
    unset. *)
Theorem C1_handler_answers_unless_secret_load_fails (w : World)
    (event : jsobj) (s : State) :
  match ensureSecretKeyLoaded w s with
  | (Resolved _, s1) =>
      isAlb_throws event = false →
      (∀ err, fails_with w (secretKey s1) event err →
              thrown_properties err ≠ None) →
      ∃ r s', handler w event s = (Resolved r, s')
  | (Rejected e, s1) =>
      handler w event s = (Rejected e, s1)
      ∧ secret_fetch w = Rejected e
      ∧ secretKey s1 = secretKey s
      ∧ truthy (secretKey s) = false
  end.
Proof.
  destruct (ensureSecretKeyLoaded w s) as [[[]|e] s1] eqn:Hsecret.
  - intros Hingress Hthrown.
    by eapply handler_answers_after_secret.
  - split; [by rewrite handler_eq, Hsecret|].
    rewrite ensureSecretKeyLoaded_eq in Hsecret.
    destruct (truthy (secretKey s)); [discriminate|].
    destruct (negb _); [discriminate|].
    destruct (secret_fetch w) as [Value|e']; [discriminate|].
    by simplify_eq.
Qed.

Lemma C1_handler_answers_unless_secret_load_fails_witness :
  isAlb_throws gateway_event = false
  ∧ ∃ r s', handler degraded_world gateway_event initial_state = (Resolved r, s').
Proof.
  split; [reflexivity|].
  pose proof (C1_handler_answers_unless_secret_load_fails degraded_world
                gateway_event initial_state) as Hanswer.
  assert (Hsecret : ensureSecretKeyLoaded degraded_world initial_state
                    = (Resolved tt, initial_state)) by reflexivity.
  rewrite Hsecret in Hanswer. apply Hanswer.
  - reflexivity.
  - intros err [Hsetup|(request & Hsetup & Hprocess)]; [discriminate|].
    injection Hsetup as <-. injection Hprocess as <-. discriminate.
Defined.

(** ** C2: the guard of the fallback fetch *)

(** The storage fetch of the catch block happens exactly under the guard
    of lines 51-55. *)
Lemma handle_error_calls (w : World) (alb : bool) (err : jsval) (s : State) :
  calls (snd (handle_error w alb err s))
  = (calls s ++ (if fallback_enabled (env w) then [fallback_call w] else []))%list.
Proof.
  rewrite handle_error_eq. cbv zeta.
  destruct (thrown_properties err);
    (destruct (fallback_enabled (env w)); [try destruct (fallback_fetch w)|]);
    simpl; by rewrite ?app_nil_r.
Qed.

(** What the guard of one variable accepts: any value that is set, not
    empty, and not a single whitespace character. *)
Lemma env_not_blank_spec (env : gmap string string) (name : string) :
  env_not_blank env name = true ↔
  ∃ c rest, env !! name = Some (String c rest)
            ∧ (is_space c = false ∨ rest ≠ EmptyString).
Proof.
  unfold env_not_blank. destruct (env !! name) as [[|c rest]|]; simpl.
  - split; [discriminate|]. intros (c & rest & ? & _). discriminate.
  - destruct (is_space c) eqn:Hc.
    + destruct rest as [|c' rest']; simpl.
      * split; [discriminate|].
        intros (c0 & rest0 & Heq & [H|H]); inversion Heq; subst; congruence.
      * split; [|done]. intros _. exists c, (String c' rest'). eauto.
    + simpl. split; [|done]. intros _. exists c, rest. eauto.
  - split; [discriminate|]. intros (c & rest & ? & _). discriminate.
Qed.

(** One direction of the specification's condition holds: a value that is
    not empty once trimmed passes the guard. *)
Lemma present_after_trim_not_blank (env : gmap string string) (name : string) :
  present_after_trim env name = true → env_not_blank env name = true.
Proof.
  unfold present_after_trim, env_not_blank.
  destruct (env !! name) as [[|c rest]|]; [done| |done].
  intros Htrim. simpl. destruct (is_space c) eqn:Hc; [|done].
  destruct rest as [|c' rest']; [|done].
  unfold trim in Htrim. simpl in Htrim. rewrite Hc in Htrim. discriminate.
Qed.

Lemma fallback_configured_enabled (env : gmap string string) :
  fallback_configured env = true → fallback_enabled env = true.
Proof.
  unfold fallback_configured, fallback_enabled.
  intros [[Hflag Hbucket]%andb_prop Hkey]%andb_prop.
  rewrite Hflag. simpl.
  by rewrite !present_after_trim_not_blank.
Qed.

(** C2, on the code: the fallback bucket is two spaces, which is empty
    after trimming, so the specification's condition does not hold; the
    guard of the handler passes all the same and the object is fetched
    from storage. *)
Theorem C2_blank_bucket_is_fetched :
  trim "  " = EmptyString
  ∧ fallback_configured (env blank_bucket_world) = false
  ∧ fallback_enabled (env blank_bucket_world) = true
  ∧ List.filter is_storage_call
      (calls (snd (handler blank_bucket_world gateway_event initial_state)))
    = [CallGetObject (JStr "  ") (JStr "fallback.png")].
Proof. vm_compute. repeat split; reflexivity. Qed.

(** ** C3: the terminal error responses *)

(** An HTTP status passes the test [err.status]; a failure without a
    [status] property does not. *)
Lemma http_status_truthy (n : Z) : 100 ≤ n ≤ 599 → truthy (JNum n) = true.
Proof. intros Hn. simpl. destruct (Z.eqb_spec n 0); [lia|done]. Qed.

Lemma absent_status_falsy (err : jsobj) :
  hasOwnProperty (JObj err) "status" = false →
  truthy (get_prop err "status") = false.
Proof.
  induction err as [|[k v] err IH]; simpl; [done|].
  destruct (String.eqb k "status"); [discriminate|exact IH].
Qed.




(** ** C4: the secret is loaded once *)

Lemma filter_record_call (P : Call → bool) (c : Call) (s : State) :
  P c = false →
  List.filter P (calls (record_call c s)) = List.filter P (calls s).
Proof.
  intros Hc. simpl. rewrite List.filter_app. simpl. rewrite Hc.
  apply app_nil_r.
Qed.

(** The [try] block neither touches the secret nor asks for it. *)
Lemma process_request_keeps_secret (w : World) (alb : bool) (sk : jsval)
    (event : jsobj) (s : State) :
  let s' := snd (process_request w alb sk event s) in
  secretKey s' = secretKey s
  ∧ List.filter is_secret_call (calls s') = List.filter is_secret_call (calls s).
Proof.
  rewrite process_request_eq. cbv zeta.
  destruct (setup w sk event) as [request|err]; [destruct (process w request)|];
    simpl snd; (split; [reflexivity|]);
    rewrite ?filter_record_call; reflexivity.
Qed.

(** Nor does the [catch] block. *)
Lemma handle_error_keeps_secret (w : World) (alb : bool) (err : jsval)
    (s : State) :
  let s' := snd (handle_error w alb err s) in
  secretKey s' = secretKey s
  ∧ List.filter is_secret_call (calls s') = List.filter is_secret_call (calls s).
Proof.
  rewrite handle_error_eq. cbv zeta.
  destruct (thrown_properties err);
    (destruct (fallback_enabled (env w)); [try destruct (fallback_fetch w)|]);
    simpl snd; (split; [reflexivity|]);
    rewrite ?filter_record_call; reflexivity.
Qed.

(** An invocation that starts with the secret set leaves it as it is and
    does not ask the parameter store. *)
Lemma handler_keeps_secret (w : World) (event : jsobj) (s : State) :
  truthy (secretKey s) = true →
  let s' := snd (handler w event s) in
  secretKey s' = secretKey s
  ∧ List.filter is_secret_call (calls s') = List.filter is_secret_call (calls s).
Proof.
  intros Hset. cbv zeta. rewrite handler_eq, ensureSecretKeyLoaded_eq, Hset.
  destruct (isAlb_throws event); [done|].
  pose proof (process_request_keeps_secret w (isAlb event) (secretKey s) event s)
    as [Hkey Hcalls].
  destruct (process_request _ _ _ _ _) as [[r|err] s2]; simpl in *; [done|].
  pose proof (handle_error_keeps_secret w (isAlb event) err s2) as [Hkey' Hcalls'].
  simpl in *. split; congruence.
Qed.

Lemma serve_keeps_secret (invocations : list (World * jsobj)) (s : State) :
  truthy (secretKey s) = true →
  let s' := snd (serve invocations s) in
  secretKey s' = secretKey s
  ∧ List.filter is_secret_call (calls s') = List.filter is_secret_call (calls s).
Proof.
  revert s. induction invocations as [|[w event] rest IH]; intros s Hset.
  - done.
  - cbn [serve]. pose proof (handler_keeps_secret w event s Hset) as [Hkey Hcalls].
    destruct (handler w event s) as [r s1]. simpl in Hkey, Hcalls.
    assert (Hset1 : truthy (secretKey s1) = true) by congruence.
    specialize (IH s1 Hset1) as [Hkey' Hcalls'].
    destruct (serve rest s1) as [rs s2]. simpl in *. split; congruence.
Qed.

(** C4: [ensureSecretKeyLoaded] does nothing when signing is disabled,
    and nothing when the secret is already set; a failed fetch is
    propagated and leaves the secret unset; a successful fetch is the one
    write.  Hence, from a state in which the secret is set, every sequence
    of invocations ends with the same secret and not one further request
    to the parameter store. *)
Theorem C4_secret_loaded_once (w : World) (s : State) :
  (env_is_yes (env w) "ENABLE_SIGNATURE" = false →
     ensureSecretKeyLoaded w s = (Resolved tt, s))
  ∧ (truthy (secretKey s) = true →
       ensureSecretKeyLoaded w s = (Resolved tt, s))
  ∧ (∀ e, truthy (secretKey s) = false →
          env_is_yes (env w) "ENABLE_SIGNATURE" = true →
          secret_fetch w = Rejected e →
          ensureSecretKeyLoaded w s = (Rejected e, record_call (secret_call w) s)
          ∧ secretKey (record_call (secret_call w) s) = secretKey s)
  ∧ (∀ Value, truthy (secretKey s) = false →
          env_is_yes (env w) "ENABLE_SIGNATURE" = true →
          secret_fetch w = Resolved Value →
          ensureSecretKeyLoaded w s
          = (Resolved tt,
             {| secretKey := Value; calls := calls s ++ [secret_call w] |}))
  ∧ (∀ invocations, truthy (secretKey s) = true →
       secretKey (snd (serve invocations s)) = secretKey s
       ∧ List.filter is_secret_call (calls (snd (serve invocations s)))
         = List.filter is_secret_call (calls s)).
Proof.
  rewrite ensureSecretKeyLoaded_eq. split; [|split; [|split; [|split]]].
  - intros ->. simpl. by destruct (truthy (secretKey s)).
  - by intros ->.
  - intros e -> -> ->. split; reflexivity.
  - intros Value -> -> ->. reflexivity.
  - intros invocations Hset. exact (serve_keeps_secret invocations s Hset).
Qed.

Lemma C4_secret_loaded_once_witness :
  let s1 := snd (handler signed_world gateway_event initial_state) in
  truthy (secretKey s1) = true
  ∧ secretKey (snd (serve [(signing_world, gateway_event);
                           (signed_world, alb_event)] s1)) = JStr "s3cr3t"
  ∧ List.filter is_secret_call
      (calls (snd (serve [(signing_world, gateway_event);
                          (signed_world, alb_event)] s1)))
    = [CallGetParameter (JStr "signing-key")].
Proof.
  intros s1.
  destruct (C4_secret_loaded_once signed_world s1) as (_ & _ & _ & _ & Hserve).
  destruct (Hserve [(signing_world, gateway_event); (signed_world, alb_event)])
    as [Hkey Hcalls]; [reflexivity|].
  split; [reflexivity|]. split.
  - rewrite Hkey. reflexivity.
  - rewrite Hcalls. reflexivity.
Defined.

(** ** C5: the overlay order of the success response *)

(** The [for ... in] loop is a left-biased union; a custom header named
    [__proto__] does not become a property. *)
Lemma apply_custom_headers_union (headers custom : gmap string jsval) :
  apply_custom_headers headers custom = delete "__proto__" custom ∪ headers.
Proof.
  unfold apply_custom_headers.
  apply (map_fold_weak_ind (λ acc m, acc = delete "__proto__" m ∪ headers)).
  - by rewrite delete_empty, (left_id_L ∅ (∪)).
  - intros key value m acc Hfresh ->. unfold set_prop.
    destruct (String.eqb_spec key "__proto__") as [->|Hkey].
    + by rewrite delete_insert_eq.
    + by rewrite delete_insert_ne, insert_union_l.
Qed.

Lemma success_response_headers (w : World) (alb : bool) (request : Request.t)
    (image : string) :
  Response.headers (success_response w alb request image)
  = delete "__proto__" (custom_headers request)
    ∪ (metadata_headers request ∪ getResponseHeaders (env w) false alb).
Proof.
  unfold success_response, custom_headers, metadata_headers.
  simpl. rewrite <- !insert_union_l, (left_id_L ∅ (∪)).
  destruct (Request.headers request) as [custom|]; simpl.
  - apply apply_custom_headers_union.
  - by rewrite delete_empty, (left_id_L ∅ (∪)).
Qed.

(** The layers below the custom headers never hold [__proto__]. *)
Lemma lower_layers_no_proto (w : World) (alb : bool) (request : Request.t) :
  (metadata_headers request ∪ getResponseHeaders (env w) false alb)
  !! "__proto__" = None.
Proof.
  apply lookup_union_None. split.
  - unfold metadata_headers. by simplify_map_eq.
  - unfold getResponseHeaders. cbv zeta.
    destruct (env_is_yes (env w) "CORS_ENABLED"), alb; by simplify_map_eq.
Qed.

(** Key by key, a success response reads its custom headers first. *)
Lemma success_response_lookup (w : World) (alb : bool) (request : Request.t)
    (image : string) (key : string) :
  key ≠ "__proto__" →
  Response.headers (success_response w alb request image) !! key
  = layered_headers w alb request !! key.
Proof.
  intros Hkey. rewrite success_response_headers. unfold layered_headers.
  rewrite !lookup_union, lookup_delete_ne; done.
Qed.

Lemma handler_on_success (w : World) (event : jsobj) (s s1 : State)
    (request : Request.t) (image : string) :
  ensureSecretKeyLoaded w s = (Resolved tt, s1) →
  isAlb_throws event = false →
  setup w (secretKey s1) event = Resolved request →
  process w request = Resolved image →
  ∃ s', handler w event s
        = (Resolved (success_response w (isAlb event) request image), s').
Proof.
  intros Hsecret Hingress Hsetup Hprocess.
  rewrite handler_eq, Hsecret, Hingress, process_request_eq. cbv zeta.
  rewrite Hsetup, Hprocess. eauto.
Qed.

(** C5: on the success path (the ingress test has gone through, parsing
    and processing succeed) the headers of the response
    are the three layers in order: the custom headers of the request over
    its metadata (Content-Type, Expires, Last-Modified, Cache-Control) over
    the composed headers.  So a key that a custom header shares with a
    lower layer has the custom value; a key of the metadata that is no
    custom header has the metadata value, whatever the composed headers
    hold; any other key has the composed value. *)
Theorem C5_header_overlay_order (w : World) (event : jsobj) (s s1 : State)
    (request : Request.t) (image : string) :
  ensureSecretKeyLoaded w s = (Resolved tt, s1) →
  isAlb_throws event = false →
  setup w (secretKey s1) event = Resolved request →
  process w request = Resolved image →
  ∃ r s', handler w event s = (Resolved r, s')
    ∧ Response.statusCode r = JNum 200
    ∧ (∀ key, key ≠ "__proto__" →
         Response.headers r !! key
         = layered_headers w (isAlb event) request !! key)
    ∧ (∀ key value, custom_headers request !! key = Some value →
         is_Some ((metadata_headers request
                   ∪ getResponseHeaders (env w) false (isAlb event)) !! key) →
         Response.headers r !! key = Some value)
    ∧ (∀ key value, custom_headers request !! key = None →
         metadata_headers request !! key = Some value →
         Response.headers r !! key = Some value)
    ∧ (∀ key, custom_headers request !! key = None →
         metadata_headers request !! key = None →
         Response.headers r !! key
         = getResponseHeaders (env w) false (isAlb event) !! key).
Proof.
  intros Hsecret Hingress Hsetup Hprocess.
  destruct (handler_on_success w event s s1 request image
              Hsecret Hingress Hsetup Hprocess) as [s' Hr].
  eexists _, s'. split; [exact Hr|]. split; [reflexivity|].
  split; [|split; [|split]].
  - intros key Hkey. by apply success_response_lookup.
  - intros key value Hcustom Hlower.
    assert (Hkey : key ≠ "__proto__").
    { intros ->. rewrite lower_layers_no_proto in Hlower. by destruct Hlower. }
    rewrite success_response_lookup by done.
    by apply lookup_union_Some_l.
  - intros key value Hcustom Hmeta. rewrite success_response_headers.
    rewrite lookup_union_r by (apply lookup_delete_None; eauto).
    by apply lookup_union_Some_l.
  - intros key Hcustom Hmeta. rewrite success_response_headers.
    rewrite lookup_union_r by (apply lookup_delete_None; eauto).
    by rewrite lookup_union_r.
Qed.

Lemma C5_header_overlay_order_witness :
  ∃ r s', handler working_world alb_event initial_state = (Resolved r, s')
    ∧ Response.headers r !! "Cache-Control" = Some (JStr "no-store")
    ∧ Response.headers r !! "Content-Type" = Some (JStr "image/jpeg").
Proof.
  destruct (C5_header_overlay_order working_world alb_event initial_state
              initial_state sample_request "TWFu")
    as (r & s' & Hr & _ & _ & Hcustom & Hmeta & _); try reflexivity.
  exists r, s'. split; [exact Hr|]. split.
  - apply Hcustom; [reflexivity|]. by eexists.
  - apply Hmeta; reflexivity.
Defined.

(** ** C6: the fallback image response *)



(** ** C7: the content type of the error responses *)

Lemma getResponseHeaders_error_content_type (env : gmap string string)
    (alb : bool) :
  getResponseHeaders env true alb !! "Content-Type"
  = Some (JStr "application/json").
Proof. unfold getResponseHeaders. cbv zeta. apply lookup_insert_eq. Qed.

Lemma error_response_headers (w : World) (alb : bool) (err : jsobj) :
  Response.headers (error_response w alb err)
  = getResponseHeaders (env w) true alb.
Proof. unfold error_response. by destruct (truthy _). Qed.

Lemma error_response_not_base64 (w : World) (alb : bool) (err : jsobj) :
  Response.isBase64Encoded (error_response w alb err) = false.
Proof. unfold error_response. by destruct (truthy _). Qed.

(** C7: composed in error mode, the headers hold
    [Content-Type: application/json] whatever the configuration and the
    ingress; both JSON error responses carry exactly the headers composed
    in error mode; so every response of the handler that is not an image
    has that content type. *)
Theorem C7_error_content_type_is_json :
  (∀ (env : gmap string string) (alb : bool),
     getResponseHeaders env true alb !! "Content-Type"
     = Some (JStr "application/json"))
  ∧ (∀ (w : World) (alb : bool) (err : jsobj),
       Response.headers (error_response w alb err)
       = getResponseHeaders (env w) true alb)
  ∧ (∀ (w : World) (event : jsobj) (s s' : State) (r : Response.t),
       handler w event s = (Resolved r, s') →
       Response.isBase64Encoded r = false →
       Response.headers r !! "Content-Type" = Some (JStr "application/json")).
Proof.
  split; [exact getResponseHeaders_error_content_type|].
  split; [exact error_response_headers|].
  intros w event s s' r Hr Hjson.
  apply handler_response in Hr
    as (s1 & _ & _ & [(request & image & _ & _ & ->)
                     |(err & properties & _ & _
                       & [(image & _ & _ & ->)|[_ ->]])]).
  - discriminate.
  - discriminate.
  - rewrite error_response_headers.
    apply getResponseHeaders_error_content_type.
Qed.

Lemma C7_error_content_type_is_json_witness :
  ∃ r s', handler silent_world gateway_event initial_state = (Resolved r, s')
    ∧ Response.headers r !! "Content-Type" = Some (JStr "application/json").
Proof.
  run_handler r s' Hr.
  exists r, s'. split; [exact Hr|].
  destruct C7_error_content_type_is_json as (_ & _ & Hjson).
  apply (Hjson silent_world gateway_event initial_state s' r Hr).
  vm_compute in Hr. by injection Hr as <- _.
Defined.

Lemma fallback_response_headers (w : World) (alb : bool) (err : jsobj)
    (image : S3Object.t) :
  Response.headers (fallback_response w alb err image)
  = <["Cache-Control" := JStr "max-age=31536000,public"]>
      (<["Last-Modified" := S3Object.LastModified image]>
         (<["Content-Type" := S3Object.ContentType image]>
            (getResponseHeaders (env w) false alb))).
Proof. reflexivity. Qed.

(** ** C8: Access-Control-Allow-Credentials *)

Lemma getResponseHeaders_credentials (env : gmap string string)
    (isErr alb : bool) :
  getResponseHeaders env isErr alb !! "Access-Control-Allow-Credentials"
  = if alb then None else Some (JBool true).
Proof.
  unfold getResponseHeaders. cbv zeta.
  destruct isErr, (env_is_yes env "CORS_ENABLED"), alb; by simplify_map_eq.
Qed.

(** C8, as stated, fails: the invocation comes from a load balancer, the
    parsed request names Access-Control-Allow-Credentials among its custom
    headers, and the response carries the header. *)
Lemma C8_custom_header_reaches_alb_response :
  isAlb alb_event = true
  ∧ ∃ r s', handler working_world alb_event initial_state = (Resolved r, s')
      ∧ Response.headers r !! "Access-Control-Allow-Credentials"
        = Some (JStr "true").
Proof.
  split; [reflexivity|].
  run_handler r s' Hr.
  exists r, s'. split; [exact Hr|].
  vm_compute in Hr. injection Hr as <- _. reflexivity.
Qed.

(** C8, amended: the composed headers hold
    Access-Control-Allow-Credentials, set to [true], exactly when the
    invocation is not from a load balancer.  A response of the handler
    agrees with the composed headers on that key, unless it is a success
    response whose request names the key among its custom headers: then it
    carries the custom value.  So outside load balancers the header is
    always present. *)
Theorem C8_allow_credentials (w : World) (event : jsobj) (s s' : State)
    (r : Response.t) :
  (∀ isErr alb,
     getResponseHeaders (env w) isErr alb !! "Access-Control-Allow-Credentials"
     = if alb then None else Some (JBool true))
  ∧ (handler w event s = (Resolved r, s') →
     (Response.headers r !! "Access-Control-Allow-Credentials"
      = (if isAlb event then None else Some (JBool true))
      ∨ ∃ request image value,
          r = success_response w (isAlb event) request image
          ∧ custom_headers request !! "Access-Control-Allow-Credentials"
            = Some value
          ∧ Response.headers r !! "Access-Control-Allow-Credentials"
            = Some value)
     ∧ (isAlb event = false →
        is_Some (Response.headers r !! "Access-Control-Allow-Credentials"))).
Proof.
  split; [intros; apply getResponseHeaders_credentials|].
  intros Hr.
  assert (Hcases :
    Response.headers r !! "Access-Control-Allow-Credentials"
    = (if isAlb event then None else Some (JBool true))
    ∨ ∃ request image value,
        r = success_response w (isAlb event) request image
        ∧ custom_headers request !! "Access-Control-Allow-Credentials"
          = Some value
        ∧ Response.headers r !! "Access-Control-Allow-Credentials"
          = Some value).
  { apply handler_response in Hr
      as (s1 & _ & _ & [(request & image & _ & _ & ->)
                       |(err & properties & _ & _
                         & [(image & _ & _ & ->)|[_ ->]])]).
    - destruct (custom_headers request !! "Access-Control-Allow-Credentials")
        as [value|] eqn:Hcustom.
      + right. exists request, image, value. repeat split; [done|].
        rewrite success_response_lookup by done. by apply lookup_union_Some_l.
      + left. rewrite success_response_lookup by done. unfold layered_headers.
        rewrite !lookup_union_r; [apply getResponseHeaders_credentials|done..].
    - left. rewrite fallback_response_headers, !lookup_insert_ne by done.
      apply getResponseHeaders_credentials.
    - left. rewrite error_response_headers.
      apply getResponseHeaders_credentials. }
  split; [exact Hcases|].
  intros Hgateway. rewrite Hgateway in Hcases.
  destruct Hcases as [->|(_ & _ & value & _ & _ & ->)]; eauto.
Qed.

Lemma C8_allow_credentials_witness :
  ∃ r s', handler silent_world gateway_event initial_state = (Resolved r, s')
    ∧ is_Some (Response.headers r !! "Access-Control-Allow-Credentials").
Proof.
  run_handler r s' Hr.
  exists r, s'. split; [exact Hr|].
  destruct (C8_allow_credentials silent_world gateway_event initial_state s' r)
    as [_ Hresponse].
  destruct (Hresponse Hr) as [_ Hpresent]. apply Hpresent. reflexivity.
Defined.

(** ** C9: Access-Control-Allow-Origin *)

Lemma getResponseHeaders_origin (env : gmap string string) (isErr alb : bool) :
  getResponseHeaders env isErr alb !! "Access-Control-Allow-Origin"
  = if env_is_yes env "CORS_ENABLED" then Some (getenv env "CORS_ORIGIN")
    else None.
Proof.
  unfold getResponseHeaders. cbv zeta.
  destruct isErr, (env_is_yes env "CORS_ENABLED"), alb; by simplify_map_eq.
Qed.

(** C9: in the composed headers, for either mode and either ingress,
    Access-Control-Allow-Origin is present exactly when [CORS_ENABLED] is
    [Yes], and its value is then [CORS_ORIGIN].  Each kind of response is
    built on these composed headers: a success response looks the key up
    in its custom headers first and in the composed headers otherwise; a
    fallback response and an error response have the composed entry. *)
Theorem C9_allow_origin (w : World) (event : jsobj) (s s' : State)
    (r : Response.t) :
  (∀ isErr alb,
     (is_Some (getResponseHeaders (env w) isErr alb
               !! "Access-Control-Allow-Origin")
      ↔ env w !! "CORS_ENABLED" = Some "Yes")
     ∧ (∀ value,
          getResponseHeaders (env w) isErr alb !! "Access-Control-Allow-Origin"
          = Some value →
          value = getenv (env w) "CORS_ORIGIN"))
  ∧ (handler w event s = (Resolved r, s') →
     (∃ request image,
        r = success_response w (isAlb event) request image
        ∧ Response.headers r !! "Access-Control-Allow-Origin"
          = match custom_headers request !! "Access-Control-Allow-Origin" with
            | Some value => Some value
            | None => getResponseHeaders (env w) false (isAlb event)
                      !! "Access-Control-Allow-Origin"
            end)
     ∨ (∃ err image,
          r = fallback_response w (isAlb event) err image
          ∧ Response.headers r !! "Access-Control-Allow-Origin"
            = getResponseHeaders (env w) false (isAlb event)
              !! "Access-Control-Allow-Origin")
     ∨ (∃ err,
          r = error_response w (isAlb event) err
          ∧ Response.headers r !! "Access-Control-Allow-Origin"
            = getResponseHeaders (env w) true (isAlb event)
              !! "Access-Control-Allow-Origin")).
Proof.
  split.
  - intros isErr alb. rewrite getResponseHeaders_origin. unfold env_is_yes.
    case_bool_decide as Hcors; split.
    + split; [done|eauto].
    + intros value. congruence.
    + split; [by intros [? ?]|done].
    + intros value. discriminate.
  - intros Hr. apply handler_response in Hr
      as (s1 & _ & _ & [(request & image & _ & _ & ->)
                       |(err & properties & _ & _
                         & [(image & _ & _ & ->)|[_ ->]])]).
    + left. exists request, image. split; [done|].
      rewrite success_response_lookup by done. unfold layered_headers.
      destruct (custom_headers request !! "Access-Control-Allow-Origin")
        as [value|] eqn:Hcustom.
      * by apply lookup_union_Some_l.
      * by rewrite !lookup_union_r.
    + right; left. exists properties, image. split; [done|].
      by rewrite fallback_response_headers, !lookup_insert_ne.
    + right; right. exists properties. split; [done|].
      by rewrite error_response_headers.
Qed.

Lemma C9_allow_origin_witness :
  ∃ r s', handler fallback_world alb_event initial_state = (Resolved r, s')
    ∧ Response.headers r !! "Access-Control-Allow-Origin" = Some (JStr "*").
Proof.
  run_handler r s' Hr.
  exists r, s'. split; [exact Hr|].
  destruct (C9_allow_origin fallback_world alb_event initial_state s' r)
    as [_ Hresponse].
  destruct (Hresponse Hr)
    as [(request & image & -> & _)|[(err & image & -> & ->)|(err & -> & ->)]].
  - vm_compute in Hr. discriminate.
  - reflexivity.
  - reflexivity.
Defined.

(** ** C10: which responses are base64 *)

Lemma fails_with_excludes_success (w : World) (sk : jsval) (event : jsobj)
    (err : jsval) (request : Request.t) (image : string) :
  fails_with w sk event err →
  setup w sk event = Resolved request →
  process w request = Resolved image →
  False.
Proof.
  intros [Hsetup|(request' & Hsetup & Hprocess)] Hsetup' Hprocess'.
  - congruence.
  - rewrite Hsetup in Hsetup'. injection Hsetup' as ->. congruence.
Qed.

(** C10: once the secret step has returned and the ingress test has gone
    through, each of the four branches returns its response.  After
    successful processing: status 200, base64.  After a failure (with
    anything but [undefined] and [null]) with the fallback image fetched:
    base64.  After a failure without fallback image: not base64, with the
    failure's status when it is truthy, with 500 when it is not.  And a
    response that the handler returns is base64 exactly when processing
    succeeded or the fallback image was served. *)
Theorem C10_base64_flag (w : World) (event : jsobj) (s s1 : State) :
  ensureSecretKeyLoaded w s = (Resolved tt, s1) →
  isAlb_throws event = false →
  (∀ request image,
     setup w (secretKey s1) event = Resolved request →
     process w request = Resolved image →
     ∃ r s', handler w event s = (Resolved r, s')
       ∧ Response.statusCode r = JNum 200
       ∧ Response.isBase64Encoded r = true)
  ∧ (∀ err properties,
       fails_with w (secretKey s1) event err →
       thrown_properties err = Some properties →
       (∀ image,
          fallback_enabled (env w) = true →
          fallback_fetch w = Resolved image →
          ∃ r s', handler w event s = (Resolved r, s')
            ∧ r = fallback_response w (isAlb event) properties image
            ∧ Response.isBase64Encoded r = true)
       ∧ (fallback_enabled (env w) = false
          ∨ (∃ e, fallback_fetch w = Rejected e) →
          truthy (get_prop properties "status") = true →
          ∃ r s', handler w event s = (Resolved r, s')
            ∧ Response.statusCode r = get_prop properties "status"
            ∧ Response.isBase64Encoded r = false)
       ∧ (fallback_enabled (env w) = false
          ∨ (∃ e, fallback_fetch w = Rejected e) →
          truthy (get_prop properties "status") = false →
          ∃ r s', handler w event s = (Resolved r, s')
            ∧ Response.statusCode r = JNum 500
            ∧ Response.isBase64Encoded r = false))
  ∧ (∀ r s',
       handler w event s = (Resolved r, s') →
       (Response.isBase64Encoded r = true ↔
        (∃ request image,
           setup w (secretKey s1) event = Resolved request
           ∧ process w request = Resolved image)
        ∨ (fallback_enabled (env w) = true
           ∧ ∃ image, fallback_fetch w = Resolved image))).
Proof.
  intros Hsecret Hingress. split; [|split].
  - intros request image Hsetup Hprocess.
    destruct (handler_on_success w event s s1 request image
                Hsecret Hingress Hsetup Hprocess) as [s' Hr].
    eexists _, s'. split; [exact Hr|]. split; reflexivity.
  - intros err properties Hfail Herr.
    destruct (handler_on_failure w event s s1 err Hsecret Hingress Hfail)
      as [s2 ->].
    rewrite handle_error_eq, Herr. cbv zeta. split; [|split].
    + intros image -> ->. eexists _, _. split; [reflexivity|]. done.
    + intros Hnone Hstatus.
      assert (Hshape :
        Response.statusCode (error_response w (isAlb event) properties)
        = get_prop properties "status"
        ∧ Response.isBase64Encoded (error_response w (isAlb event) properties)
          = false)
        by (unfold error_response; by rewrite Hstatus).
      destruct Hnone as [->|[e ->]];
        [|destruct (fallback_enabled (env w))]; eauto.
    + intros Hnone Hstatus.
      assert (Hshape :
        Response.statusCode (error_response w (isAlb event) properties)
        = JNum 500
        ∧ Response.isBase64Encoded (error_response w (isAlb event) properties)
          = false)
        by (unfold error_response; by rewrite Hstatus).
      destruct Hnone as [->|[e ->]];
        [|destruct (fallback_enabled (env w))]; eauto.
  - intros r s' Hr. apply handler_response in Hr
      as (s1' & Hsecret' & _ & Hbranch).
    rewrite Hsecret in Hsecret'. injection Hsecret' as <-.
    destruct Hbranch
      as [(request & image & Hsetup & Hprocess & ->)
         |(err & properties & Hfail & Herr
           & [(image & Hguard & Hfetch & ->)|[Hnone ->]])].
    + split; [|done]. intros _. left. eauto.
    + split; [|done]. intros _. right. eauto.
    + rewrite error_response_not_base64. split; [discriminate|].
      intros [(request & image & Hsetup & Hprocess)|[Hguard [image Hfetch]]].
      * destruct (fails_with_excludes_success _ _ _ _ _ _ Hfail Hsetup Hprocess).
      * destruct Hnone as [Hoff|[e He]]; congruence.
Qed.

Lemma C10_base64_flag_witness :
  (∃ r s', handler working_world gateway_event initial_state = (Resolved r, s')
     ∧ Response.statusCode r = JNum 200
     ∧ Response.isBase64Encoded r = true)
  ∧ (∃ r s', handler degraded_world gateway_event initial_state = (Resolved r, s')
       ∧ Response.isBase64Encoded r = true)
  ∧ (∃ r s', handler silent_world gateway_event initial_state = (Resolved r, s')
       ∧ Response.statusCode r = JNum 404
       ∧ Response.isBase64Encoded r = false)
  ∧ (∃ r s', handler (with_env ∅ degraded_world) alb_event initial_state
             = (Resolved r, s')
       ∧ Response.statusCode r = JNum 500
       ∧ Response.isBase64Encoded r = false).
Proof.
  split; [|split; [|split]].
  - destruct (C10_base64_flag working_world gateway_event initial_state
                initial_state eq_refl eq_refl) as (Hsuccess & _ & _).
    apply (Hsuccess sample_request "TWFu"); reflexivity.
  - destruct (C10_base64_flag degraded_world gateway_event initial_state
                initial_state eq_refl eq_refl) as (_ & Hfailure & _).
    destruct (Hfailure (JObj [("message", JStr "boom")])
                [("message", JStr "boom")]) as (Hfallback & _ & _).
    + right. exists sample_request. split; reflexivity.
    + reflexivity.
    + destruct (Hfallback sample_image eq_refl eq_refl) as (r & s' & Hr & _ & Hflag).
      eauto.
  - destruct (C10_base64_flag silent_world gateway_event initial_state
                initial_state eq_refl eq_refl) as (_ & Hfailure & _).
    destruct (Hfailure (JObj [("status", JNum 404); ("code", JStr "NoSuchKey");
                              ("message", JStr "The image does not exist.")])
                [("status", JNum 404); ("code", JStr "NoSuchKey");
                 ("message", JStr "The image does not exist.")])
      as (_ & Hclassified & _).
    + left. reflexivity.
    + reflexivity.
    + apply Hclassified; [left|]; reflexivity.
  - destruct (C10_base64_flag (with_env ∅ degraded_world) alb_event
                initial_state initial_state)
      as (_ & Hfailure & _); [reflexivity..|].
    destruct (Hfailure (JObj [("message", JStr "boom")])
                [("message", JStr "boom")]) as (_ & _ & Hinternal).
    + right. exists sample_request. split; reflexivity.
    + reflexivity.
    + apply Hinternal; [left|]; reflexivity.
Defined.

(** * Further properties of the code *)

(** ** The header composer *)

(** The names of the composed headers. *)
Lemma getResponseHeaders_dom (env : gmap string string) (isErr alb : bool) :
  dom (getResponseHeaders env isErr alb) = composed_keys env isErr alb.
Proof.
  unfold getResponseHeaders, composed_keys. cbv zeta.
  destruct isErr, (env_is_yes env "CORS_ENABLED"), alb; simpl;
    rewrite ?dom_insert_L, dom_empty_L; set_solver.
Qed.

(** X1: the composer sets Access-Control-Allow-Methods and
    Access-Control-Allow-Headers to their fixed values in every case, and
    the names it sets are those two, plus the credentials name outside load
    balancers, the origin name under CORS, and Content-Type in error mode:
    nothing else. *)
Theorem getResponseHeaders_keys (env : gmap string string) (isErr alb : bool) :
  getResponseHeaders env isErr alb !! "Access-Control-Allow-Methods"
  = Some (JStr "GET")
  ∧ getResponseHeaders env isErr alb !! "Access-Control-Allow-Headers"
    = Some (JStr "Content-Type, Authorization")
  ∧ dom (getResponseHeaders env isErr alb) = composed_keys env isErr alb.
Proof.
  split; [|split; [|apply getResponseHeaders_dom]].
  - unfold getResponseHeaders. cbv zeta.
    destruct isErr, (env_is_yes env "CORS_ENABLED"), alb; by simplify_map_eq.
  - unfold getResponseHeaders. cbv zeta.
    destruct isErr, (env_is_yes env "CORS_ENABLED"), alb; by simplify_map_eq.
Qed.

(** X2: for a load balancer the composer gives what it gives otherwise,
    less the credentials header; the ingress changes nothing else. *)
Theorem getResponseHeaders_alb (env : gmap string string) (isErr : bool) :
  getResponseHeaders env isErr true
  = delete "Access-Control-Allow-Credentials"
      (getResponseHeaders env isErr false).
Proof.
  unfold getResponseHeaders. cbv zeta. apply map_eq. intros key.
  destruct (decide (key = "Access-Control-Allow-Credentials")) as [->|Hkey].
  - rewrite lookup_delete_eq.
    destruct isErr, (env_is_yes env "CORS_ENABLED"); by simplify_map_eq.
  - rewrite lookup_delete_ne by done.
    destruct isErr, (env_is_yes env "CORS_ENABLED"); simpl;
      rewrite ?lookup_insert; repeat case_decide; by subst.
Qed.

(** ** The guard of the fallback image *)

(** X4: the guard of lines 51-55 passes exactly when the flag is the
    string [Yes] and bucket and key are both set to something other than
    the empty string and a single whitespace character. *)
Theorem fallback_enabled_spec (env : gmap string string) :
  fallback_enabled env = true ↔
  env !! "ENABLE_DEFAULT_FALLBACK_IMAGE" = Some "Yes"
  ∧ passes_guard env "DEFAULT_FALLBACK_IMAGE_BUCKET"
  ∧ passes_guard env "DEFAULT_FALLBACK_IMAGE_KEY".
Proof.
  unfold fallback_enabled, passes_guard, env_is_yes.
  rewrite !andb_true_iff, !env_not_blank_spec, bool_decide_eq_true.
  tauto.
Qed.

Lemma fallback_enabled_spec_witness :
  fallback_enabled (env blank_bucket_world) = true
  ∧ fallback_enabled (env silent_world) = false.
Proof.
  split; [|reflexivity]. apply fallback_enabled_spec.
  split; [reflexivity|]. split.
  - exists " "%char, " ". split; [reflexivity|]. right. discriminate.
  - exists "f"%char, "allback.png". split; [reflexivity|]. left. reflexivity.
Defined.

(** ** The calls of an invocation *)

Lemma new_calls_app (s s' : State) (added : list Call) :
  calls s' = (calls s ++ added)%list → new_calls s s' = added.
Proof. intros Heq. unfold new_calls. rewrite Heq. apply drop_app_length. Qed.

Lemma handle_error_new_calls (w : World) (alb : bool) (err : jsval) (s : State) :
  calls (snd (handle_error w alb err s)) = (calls s ++ fallback_calls w)%list.
Proof. apply handle_error_calls. Qed.

Lemma pipeline_calls_eq (w : World) (event : jsobj) (s : State) :
  calls (snd (match process_request w (isAlb event) (secretKey s) event s with
              | (Resolved r, s2) => (Resolved r, s2)
              | (Rejected err, s2) => handle_error w (isAlb event) err s2
              end))
  = (calls s ++ pipeline_calls w event (secretKey s))%list.
Proof.
  rewrite process_request_eq. cbv zeta. unfold pipeline_calls.
  destruct (setup w (secretKey s) event) as [request|err].
  - destruct (process w request) as [image|err].
    + simpl. by rewrite <- app_assoc.
    + rewrite handle_error_new_calls. simpl. by rewrite <- !app_assoc.
  - rewrite handle_error_new_calls. simpl. by rewrite <- !app_assoc.
Qed.

(** The calls of the handler, as a list. *)
Lemma calls_after_secret_eq (w : World) (event : jsobj) (s : State) :
  calls (snd (if isAlb_throws event then (Rejected TypeError, s)
              else
                match process_request w (isAlb event) (secretKey s) event s with
                | (Resolved r, s2) => (Resolved r, s2)
                | (Rejected err, s2) => handle_error w (isAlb event) err s2
                end))
  = (calls s ++ calls_after_secret w event (secretKey s))%list.
Proof.
  unfold calls_after_secret.
  destruct (isAlb_throws event); [by rewrite app_nil_r|].
  apply pipeline_calls_eq.
Qed.

Lemma handler_calls_eq (w : World) (event : jsobj) (s : State) :
  calls (snd (handler w event s)) = (calls s ++ expected_calls w event s)%list.
Proof.
  rewrite handler_eq, ensureSecretKeyLoaded_eq. unfold expected_calls.
  destruct (truthy (secretKey s)); simpl; [apply calls_after_secret_eq|].
  destruct (env_is_yes (env w) "ENABLE_SIGNATURE"); simpl;
    [|apply calls_after_secret_eq].
  destruct (secret_fetch w) as [Value|e]; [|reflexivity].
  rewrite calls_after_secret_eq. simpl. by rewrite <- app_assoc.
Qed.

Lemma handler_new_calls (w : World) (event : jsobj) (s : State) :
  new_calls s (snd (handler w event s)) = expected_calls w event s.
Proof. apply new_calls_app, handler_calls_eq. Qed.

(** X5: the record of calls only grows, and what one invocation adds is:
    the secret fetch, if the secret is unset and signing is on; then,
    unless that fetch failed or the ingress test of line 21 throws,
    [setup] with the secret and the event; then
    [process] with the very request [setup] resolved with, if it resolved;
    then the fetch of the fallback object with the configured bucket and
    key, if [setup] or [process] rejected and the guard passes. *)
Theorem handler_calls (w : World) (event : jsobj) (s : State) :
  calls (snd (handler w event s)) = (calls s ++ expected_calls w event s)%list
  ∧ new_calls s (snd (handler w event s)) = expected_calls w event s.
Proof.
  pose proof (handler_calls_eq w event s) as Hcalls.
  split; [exact Hcalls|]. unfold new_calls. rewrite Hcalls.
  apply drop_app_length.
Qed.

(** X6: within one invocation the collaborators are called in the order
    parameter store, parser, processor, object store, each at most once:
    nothing is retried, whatever the outcome. *)
Theorem handler_never_retries (w : World) (event : jsobj) (s : State) :
  StronglySorted lt (stage <$> new_calls s (snd (handler w event s))).
Proof.
  rewrite handler_new_calls.
  unfold expected_calls, calls_after_secret, pipeline_calls, fallback_calls.
  destruct (truthy (secretKey s) || negb (env_is_yes (env w) "ENABLE_SIGNATURE"));
    [|destruct (secret_fetch w) as [Value|e]];
    repeat match goal with
           | |- context [match ?x with _ => _ end] => destruct x
           end;
    simpl; repeat constructor; lia.
Qed.

(** After the secret step nothing changes the secret. *)
Lemma handler_secret_effect (w : World) (event : jsobj) (s : State) :
  secretKey (snd (handler w event s))
  = secretKey (snd (ensureSecretKeyLoaded w s)).
Proof.
  rewrite handler_eq.
  destruct (ensureSecretKeyLoaded w s) as [[[]|e] s1]; [|reflexivity].
  destruct (isAlb_throws event); [reflexivity|].
  pose proof (process_request_keeps_secret w (isAlb event) (secretKey s1) event s1)
    as [Hkey _].
  destruct (process_request _ _ _ _ _) as [[r|err] s2]; simpl in *; [done|].
  pose proof (handle_error_keeps_secret w (isAlb event) err s2) as [Hkey' _].
  simpl in *. congruence.
Qed.

Lemma pipeline_setup_call (w : World) (event : jsobj) (sk : jsval) :
  List.filter is_setup_call (pipeline_calls w event sk) = [CallSetup sk event].
Proof.
  unfold pipeline_calls, fallback_calls, fallback_call.
  destruct (setup w sk event) as [request|err];
    [destruct (process w request)|];
    destruct (fallback_enabled (env w)); reflexivity.
Qed.

Lemma pipeline_storage_call (w : World) (event : jsobj) (sk : jsval) :
  List.filter is_storage_call (pipeline_calls w event sk)
  = match setup w sk event with
    | Resolved request =>
        match process w request with
        | Resolved _ => []
        | Rejected _ => fallback_calls w
        end
    | Rejected _ => fallback_calls w
    end.
Proof.
  unfold pipeline_calls, fallback_calls, fallback_call.
  destruct (setup w sk event) as [request|err];
    [destruct (process w request)|];
    destruct (fallback_enabled (env w)); reflexivity.
Qed.

(** A response means that line 21 went through. *)
Lemma handler_resolved_ingress (w : World) (event : jsobj) (s s' : State)
    (r : Response.t) :
  handler w event s = (Resolved r, s') → isAlb_throws event = false.
Proof. intros Hr. by apply handler_response in Hr as (_ & _ & ? & _). Qed.

(** X7: the parser is called once in every invocation that is answered,
    with the event as received and with the secret as the process holds it
    when the invocation ends, whether or not signing is enabled now. *)
Theorem parser_receives_cached_secret (w : World) (event : jsobj)
    (s s' : State) (r : Response.t) :
  handler w event s = (Resolved r, s') →
  List.filter is_setup_call (new_calls s s') = [CallSetup (secretKey s') event].
Proof.
  intros Hr.
  pose proof (handler_resolved_ingress _ _ _ _ _ Hr) as Hingress.
  pose proof (handler_new_calls w event s) as Hnew.
  pose proof (handler_secret_effect w event s) as Hkey.
  rewrite Hr in Hnew, Hkey. simpl in Hnew, Hkey. rewrite Hnew, Hkey.
  rewrite handler_eq, ensureSecretKeyLoaded_eq in Hr.
  rewrite ensureSecretKeyLoaded_eq. unfold expected_calls, calls_after_secret.
  rewrite Hingress.
  destruct (truthy (secretKey s)); simpl; [apply pipeline_setup_call|].
  destruct (env_is_yes (env w) "ENABLE_SIGNATURE"); simpl;
    [|apply pipeline_setup_call].
  destruct (secret_fetch w) as [Value|e]; [|discriminate].
  simpl. apply pipeline_setup_call.
Qed.

Lemma parser_receives_cached_secret_witness :
  ∃ r s', handler signed_world gateway_event initial_state = (Resolved r, s')
    ∧ List.filter is_setup_call (new_calls initial_state s')
      = [CallSetup (JStr "s3cr3t") gateway_event].
Proof.
  run_handler r s' Hr.
  exists r, s'. split; [exact Hr|].
  rewrite (parser_receives_cached_secret _ _ _ _ _ Hr).
  vm_compute in Hr. by injection Hr as _ <-.
Defined.

(** X8: an invocation fetches from the object store exactly when the
    secret step returned, the ingress test of line 21 went through, parsing
    or processing failed, and the guard of the fallback passes; it then
    asks once, for the configured bucket and key as they are written,
    without trimming.  A successful invocation never touches the object
    store from here. *)
Theorem storage_fetch_iff (w : World) (event : jsobj) (s : State) :
  let fetched :=
    List.filter is_storage_call (new_calls s (snd (handler w event s))) in
  (fetched = [] ∨ fetched = [fallback_call w])
  ∧ (fetched = [fallback_call w] ↔
     ∃ s1 err, ensureSecretKeyLoaded w s = (Resolved tt, s1)
               ∧ isAlb_throws event = false
               ∧ fails_with w (secretKey s1) event err
               ∧ fallback_enabled (env w) = true)
  ∧ (fetched = [fallback_call w] →
     ∃ bucket key,
       env w !! "DEFAULT_FALLBACK_IMAGE_BUCKET" = Some bucket
       ∧ env w !! "DEFAULT_FALLBACK_IMAGE_KEY" = Some key
       ∧ fallback_call w = CallGetObject (JStr bucket) (JStr key)).
Proof.
  cbv zeta. rewrite handler_new_calls.
  assert (Hpipe : ∀ sk,
    let fetched := List.filter is_storage_call (calls_after_secret w event sk) in
    (fetched = [] ∨ fetched = [fallback_call w])
    ∧ (fetched = [fallback_call w] ↔
       isAlb_throws event = false
       ∧ (∃ err, fails_with w sk event err) ∧ fallback_enabled (env w) = true)).
  { intros sk. cbv zeta. unfold calls_after_secret.
    destruct (isAlb_throws event).
    { split; [by left|]. split; [discriminate|]. by intros [? _]. }
    rewrite pipeline_storage_call. unfold fails_with, fallback_calls.
    destruct (setup w sk event) as [request|err] eqn:Hsetup.
    - destruct (process w request) as [image|err] eqn:Hprocess.
      + split; [by left|]. split; [discriminate|].
        intros (_ & [err [?|(request' & ? & ?)]] & _); simplify_eq; congruence.
      + destruct (fallback_enabled (env w)).
        * split; [by right|]. split; [|done]. intros _.
          split; [done|]. split; [|done]. exists err. right. eauto.
        * split; [by left|]. split; [discriminate|]. by intros (_ & _ & ?).
    - destruct (fallback_enabled (env w)).
      + split; [by right|]. split; [|done]. intros _.
        split; [done|]. split; [|done]. exists err. by left.
      + split; [by left|]. split; [discriminate|]. by intros (_ & _ & ?). }
  assert (Hmain :
    (List.filter is_storage_call (expected_calls w event s) = []
     ∨ List.filter is_storage_call (expected_calls w event s) = [fallback_call w])
    ∧ (List.filter is_storage_call (expected_calls w event s) = [fallback_call w]
       ↔ ∃ s1 err, ensureSecretKeyLoaded w s = (Resolved tt, s1)
                   ∧ isAlb_throws event = false
                   ∧ fails_with w (secretKey s1) event err
                   ∧ fallback_enabled (env w) = true)).
  { rewrite ensureSecretKeyLoaded_eq. unfold expected_calls.
    destruct (truthy (secretKey s)); simpl.
    { destruct (Hpipe (secretKey s)) as [Hshape Hiff]. split; [exact Hshape|].
      rewrite Hiff. split.
      - intros (Hingress & [err Hfail] & Hguard). by exists s, err.
      - intros (s1 & err & Hs1 & Hingress & Hfail & Hguard). simplify_eq. eauto. }
    destruct (env_is_yes (env w) "ENABLE_SIGNATURE"); simpl.
    2:{ destruct (Hpipe (secretKey s)) as [Hshape Hiff]. split; [exact Hshape|].
        rewrite Hiff. split.
        - intros (Hingress & [err Hfail] & Hguard). by exists s, err.
        - intros (s1 & err & Hs1 & Hingress & Hfail & Hguard).
          simplify_eq. eauto. }
    destruct (secret_fetch w) as [Value|e]; simpl.
    - destruct (Hpipe Value) as [Hshape Hiff]. split; [exact Hshape|].
      rewrite Hiff. split.
      + intros (Hingress & [err Hfail] & Hguard).
        eexists _, err. split; [done|]. eauto.
      + intros (s1 & err & Hs1 & Hingress & Hfail & Hguard).
        simplify_eq. eauto.
    - split; [by left|]. split; [discriminate|].
      intros (s1 & err & Hs1 & _). discriminate. }
  destruct Hmain as [Hshape Hiff]. split; [exact Hshape|]. split; [exact Hiff|].
  intros Hfetched. apply Hiff in Hfetched as (_ & _ & _ & _ & _ & Hguard).
  unfold fallback_enabled in Hguard.
  apply andb_prop in Hguard as [[_ Hbucket]%andb_prop Hkey].
  apply env_not_blank_spec in Hbucket as (c & rest & Hbucket & _).
  apply env_not_blank_spec in Hkey as (c' & rest' & Hkey & _).
  exists (String c rest), (String c' rest'). unfold fallback_call, getenv.
  by rewrite Hbucket, Hkey.
Qed.

Lemma storage_fetch_iff_witness :
  List.filter is_storage_call
    (new_calls initial_state
       (snd (handler degraded_world gateway_event initial_state)))
  = [CallGetObject (JStr "assets") (JStr "fallback.png")].
Proof.
  destruct (storage_fetch_iff degraded_world gateway_event initial_state)
    as (_ & Hiff & _).
  cbv zeta in Hiff. rewrite (proj2 Hiff); [reflexivity|].
  exists initial_state, (JObj [("message", JStr "boom")]).
  split; [reflexivity|]. split; [reflexivity|]. split; [|reflexivity].
  right. exists sample_request. split; reflexivity.
Defined.

(** ** The ingress test *)

Lemma own_property_spec (v : jsval) (name : string) :
  hasOwnProperty v name = true ↔
  ∃ context, v = JObj context ∧ ∃ value, (name, value) ∈ context.
Proof.
  split.
  - destruct v as [| | | | | |context]; try discriminate. simpl.
    intros ([key value] & Hin & Hkey)%existsb_exists.
    apply String.eqb_eq in Hkey. simpl in Hkey. subst key.
    exists context. split; [done|]. exists value. by apply list_elem_of_In.
  - intros (context & -> & value & Hin). simpl.
    apply existsb_exists. exists (name, value).
    split; [by apply list_elem_of_In|]. apply String.eqb_refl.
Qed.

(** X3: line 21 is outside the [try].  Once the secret step has returned,
    the handler rejects with a TypeError, having called neither parser nor
    processor nor object store, exactly when [event.requestContext] is an
    object with an own property named [hasOwnProperty].  Apart from that,
    an event counts as coming from a load balancer exactly when its
    [requestContext] is an object with an own property [elb], whatever the
    value of that property; a missing, [null] or primitive
    [requestContext] makes it a gateway event. *)
Theorem isAlb_spec (w : World) (event : jsobj) (s s1 : State) :
  ensureSecretKeyLoaded w s = (Resolved tt, s1) →
  (handler w event s = (Rejected TypeError, s1) ↔
   ∃ context, get_prop event "requestContext" = JObj context
              ∧ ∃ value, (("hasOwnProperty" : string), value) ∈ context)
  ∧ (isAlb event = true ↔
     ∃ context, get_prop event "requestContext" = JObj context
                ∧ ∃ value, (("elb" : string), value) ∈ context).
Proof.
  intros Hsecret. split.
  - rewrite <- own_property_spec. split.
    + intros Hr. pose proof (handler_calls_eq w event s) as Hcalls.
      rewrite Hr in Hcalls. simpl in Hcalls.
      rewrite ensureSecretKeyLoaded_eq in Hsecret.
      unfold expected_calls, calls_after_secret in Hcalls.
      destruct (isAlb_throws event) eqn:Hingress.
      { unfold isAlb_throws in Hingress. cbv zeta in Hingress.
        by apply andb_prop in Hingress as [_ ?]. }
      exfalso. unfold pipeline_calls in Hcalls.
      destruct (truthy (secretKey s)); simpl in *.
      { simplify_eq. apply (f_equal length) in Hcalls.
        rewrite length_app in Hcalls. simpl in Hcalls. lia. }
      destruct (env_is_yes (env w) "ENABLE_SIGNATURE"); simpl in *.
      2:{ simplify_eq. apply (f_equal length) in Hcalls.
          rewrite length_app in Hcalls. simpl in Hcalls. lia. }
      destruct (secret_fetch w); simplify_eq. simpl in Hcalls.
      apply (f_equal length) in Hcalls.
      rewrite !length_app in Hcalls. simpl in Hcalls. lia.
    + intros Hown. rewrite handler_eq, Hsecret.
      unfold isAlb_throws. cbv zeta. rewrite Hown.
      apply own_property_spec in Hown as (context & -> & _).
      reflexivity.
  - unfold isAlb. cbv zeta. rewrite <- own_property_spec. split.
    + by intros [_ ?]%andb_prop.
    + intros Hown. rewrite Hown.
      apply own_property_spec in Hown as (context & -> & _). reflexivity.
Qed.

Lemma isAlb_spec_witness :
  handler degraded_world shadowing_event initial_state
  = (Rejected TypeError, initial_state)
  ∧ isAlb alb_event = true.
Proof.
  destruct (isAlb_spec degraded_world shadowing_event initial_state
              initial_state eq_refl) as [Hthrows _].
  destruct (isAlb_spec degraded_world alb_event initial_state
              initial_state eq_refl) as [_ Halb].
  split.
  - apply Hthrows. eexists. split; [reflexivity|].
    exists (JNum 1). apply list_elem_of_In. right. left. reflexivity.
  - apply Halb. eexists. split; [reflexivity|].
    eexists. apply list_elem_of_In. left. reflexivity.
Defined.

(** ** A failure that is [undefined] or [null] *)

(** X16: when parsing or processing rejects with [undefined] or [null],
    the handler builds no response: reading [err.status] throws a
    TypeError, which the inner [try] catches at line 66 and nothing
    catches at line 76.  The handler rejects with that TypeError, after
    fetching the fallback object if the guard passes. *)
Theorem nullish_failure_escapes (w : World) (event : jsobj) (s s1 : State)
    (err : jsval) :
  ensureSecretKeyLoaded w s = (Resolved tt, s1) →
  isAlb_throws event = false →
  fails_with w (secretKey s1) event err →
  err = JUndefined ∨ err = JNull →
  ∃ s', handler w event s = (Rejected TypeError, s')
    ∧ List.filter is_storage_call (new_calls s s') = fallback_calls w.
Proof.
  intros Hsecret Hingress Hfail Hnullish.
  assert (Herr : thrown_properties err = None)
    by (destruct Hnullish as [->| ->]; reflexivity).
  pose proof (handler_new_calls w event s) as Hnew.
  destruct (handler_on_failure w event s s1 err Hsecret Hingress Hfail)
    as [s2 Hr].
  rewrite Hr in Hnew. rewrite Hr, handle_error_eq, Herr. cbv zeta.
  eexists. split; [reflexivity|].
  rewrite handle_error_eq, Herr in Hnew. cbv zeta in Hnew. simpl in Hnew.
  rewrite Hnew. clear Hnew Hr.
  rewrite ensureSecretKeyLoaded_eq in Hsecret.
  unfold expected_calls, calls_after_secret. rewrite Hingress.
  assert (Hpipe : ∀ sk, fails_with w sk event err →
            List.filter is_storage_call (pipeline_calls w event sk)
            = fallback_calls w).
  { intros sk [Hsetup|(request & Hsetup & Hprocess)];
      rewrite pipeline_storage_call, Hsetup; [done|by rewrite Hprocess]. }
  destruct (truthy (secretKey s)); simpl in *.
  { simplify_eq. by apply Hpipe. }
  destruct (env_is_yes (env w) "ENABLE_SIGNATURE"); simpl in *.
  2:{ simplify_eq. by apply Hpipe. }
  destruct (secret_fetch w); simplify_eq. simpl. by apply Hpipe.
Qed.

Lemma nullish_failure_escapes_witness :
  ∃ s', handler null_world gateway_event initial_state = (Rejected TypeError, s')
    ∧ List.filter is_storage_call (new_calls initial_state s')
      = [CallGetObject (JStr "assets") (JStr "fallback.png")].
Proof.
  destruct (nullish_failure_escapes null_world gateway_event initial_state
              initial_state JNull) as (s' & Hr & Hcalls).
  - reflexivity.
  - reflexivity.
  - left. reflexivity.
  - right. reflexivity.
  - exists s'. split; [exact Hr|]. rewrite Hcalls. reflexivity.
Defined.

(** ** The secret across invocations *)

Lemma handler_secret_calls (w : World) (event : jsobj) (s : State) :
  List.filter is_secret_call (calls (snd (handler w event s)))
  = List.filter is_secret_call (calls (snd (ensureSecretKeyLoaded w s))).
Proof.
  rewrite handler_eq.
  destruct (ensureSecretKeyLoaded w s) as [[[]|e] s1]; [|reflexivity].
  destruct (isAlb_throws event); [reflexivity|].
  pose proof (process_request_keeps_secret w (isAlb event) (secretKey s1) event s1)
    as [_ Hcalls].
  destruct (process_request _ _ _ _ _) as [[r|err] s2]; simpl in *; [done|].
  pose proof (handle_error_keeps_secret w (isAlb event) err s2) as [_ Hcalls'].
  simpl in *. congruence.
Qed.

Lemma handler_secret_unavailable (w : World) (event : jsobj) (s : State) :
  truthy (secretKey s) = false →
  secret_unavailable w →
  ∃ e, handler w event s = (Rejected e, record_call (secret_call w) s).
Proof.
  intros Hunset [Hsigning [e Hfetch]]. exists e.
  by rewrite handler_eq, ensureSecretKeyLoaded_eq, Hunset, Hsigning, Hfetch.
Qed.

(** X9: a failed load of the secret is not remembered.  While the
    parameter store refuses, every invocation of a process with signing on
    asks it once more, makes no other call, and is rejected; the secret
    stays as it was. *)
Theorem failed_load_is_retried (invocations : list (World * jsobj))
    (s : State) :
  truthy (secretKey s) = false →
  Forall (λ i, secret_unavailable i.1) invocations →
  Forall (λ o, ∃ e, o = Rejected e) (fst (serve invocations s))
  ∧ secretKey (snd (serve invocations s)) = secretKey s
  ∧ calls (snd (serve invocations s))
    = (calls s ++ ((λ i, secret_call i.1) <$> invocations))%list.
Proof.
  intros Hunset Hall. revert s Hunset.
  induction Hall as [|[w event] rest Hw _ IH]; intros s Hunset.
  - simpl. by rewrite app_nil_r.
  - cbn [serve].
    destruct (handler_secret_unavailable w event s Hunset Hw) as [e ->].
    specialize (IH (record_call (secret_call w) s) Hunset)
      as (Houtcomes & Hkey & Hcalls).
    destruct (serve rest _) as [rs s']. simpl in *.
    split; [constructor; eauto|]. split; [done|].
    rewrite Hcalls. by rewrite <- app_assoc.
Qed.

Lemma failed_load_is_retried_witness :
  calls (snd (serve [(signing_world, gateway_event); (signing_world, alb_event)]
                initial_state))
  = [CallGetParameter (JStr "signing-key"); CallGetParameter (JStr "signing-key")].
Proof.
  destruct (failed_load_is_retried
              [(signing_world, gateway_event); (signing_world, alb_event)]
              initial_state) as (_ & _ & ->).
  - reflexivity.
  - repeat constructor; by eexists.
  - reflexivity.
Defined.

(** X10: the first invocation that loads a set secret serves the whole
    process: whatever invocations follow, under whatever configuration and
    parameter store, the secret is still that value and the store was
    asked that one time only. *)
Theorem first_load_serves_process (w : World) (event : jsobj)
    (rest : list (World * jsobj)) (s : State) (Value : jsval) :
  truthy (secretKey s) = false →
  env_is_yes (env w) "ENABLE_SIGNATURE" = true →
  secret_fetch w = Resolved Value →
  truthy Value = true →
  secretKey (snd (serve ((w, event) :: rest) s)) = Value
  ∧ List.filter is_secret_call (calls (snd (serve ((w, event) :: rest) s)))
    = (List.filter is_secret_call (calls s) ++ [secret_call w])%list.
Proof.
  intros Hunset Hsigning Hfetch Hset. cbn [serve].
  pose proof (handler_secret_effect w event s) as Hkey.
  pose proof (handler_secret_calls w event s) as Hcalls.
  rewrite ensureSecretKeyLoaded_eq, Hunset, Hsigning, Hfetch in Hkey, Hcalls.
  simpl in Hkey, Hcalls. rewrite List.filter_app in Hcalls. simpl in Hcalls.
  destruct (handler w event s) as [o s1]. simpl in Hkey, Hcalls.
  assert (Hset1 : truthy (secretKey s1) = true) by congruence.
  pose proof (serve_keeps_secret rest s1 Hset1) as [Hkey' Hcalls'].
  destruct (serve rest s1) as [rs s2]. simpl in *. split; congruence.
Qed.

Lemma first_load_serves_process_witness :
  secretKey (snd (serve [(signed_world, gateway_event);
                         (signing_world, alb_event);
                         (silent_world, gateway_event)] initial_state))
  = JStr "s3cr3t".
Proof.
  destruct (first_load_serves_process signed_world gateway_event
              [(signing_world, alb_event); (silent_world, gateway_event)]
              initial_state (JStr "s3cr3t")) as [-> _]; reflexivity.
Defined.

(** X11: [ensureSecretKeyLoaded] is idempotent as long as the parameter
    store holds a non-empty value: once it has returned, calling it again
    in the state it left changes nothing and fetches nothing. *)
Theorem ensureSecretKeyLoaded_idempotent (w : World) (s s1 : State) :
  (∀ Value, secret_fetch w = Resolved Value → truthy Value = true) →
  ensureSecretKeyLoaded w s = (Resolved tt, s1) →
  ensureSecretKeyLoaded w s1 = (Resolved tt, s1).
Proof.
  intros Hstore. rewrite !ensureSecretKeyLoaded_eq.
  destruct (truthy (secretKey s)) eqn:Hset.
  { intros [= <-]. by rewrite Hset. }
  destruct (env_is_yes (env w) "ENABLE_SIGNATURE"); simpl.
  2:{ intros [= <-]. by rewrite Hset. }
  destruct (secret_fetch w) as [Value|e]; [|discriminate].
  intros [= <-]. simpl. by rewrite (Hstore Value).
Qed.

Lemma ensureSecretKeyLoaded_idempotent_witness :
  let s1 := snd (ensureSecretKeyLoaded signed_world initial_state) in
  ensureSecretKeyLoaded signed_world s1 = (Resolved tt, s1)
  ∧ calls s1 = [CallGetParameter (JStr "signing-key")].
Proof.
  intros s1. split; [|reflexivity].
  apply (ensureSecretKeyLoaded_idempotent signed_world initial_state s1).
  - intros Value [= <-]. reflexivity.
  - reflexivity.
Defined.

Lemma pipeline_no_secret_call (w : World) (event : jsobj) (sk : jsval) :
  List.filter is_secret_call (calls_after_secret w event sk) = [].
Proof.
  unfold calls_after_secret, pipeline_calls, fallback_calls, fallback_call.
  destruct (isAlb_throws event); [reflexivity|].
  destruct (setup w sk event) as [request|err];
    [destruct (process w request)|];
    destruct (fallback_enabled (env w)); reflexivity.
Qed.

(** X12: with signing disabled the handler never asks the parameter store
    and never changes the secret; if it rejects, it is with a TypeError of
    its own; and it returns a response whenever the ingress test of line 21
    goes through and parsing and processing throw nothing that is
    [undefined] or [null]. *)
Theorem signing_disabled_never_loads (w : World) (event : jsobj) (s : State) :
  env_is_yes (env w) "ENABLE_SIGNATURE" = false →
  secretKey (snd (handler w event s)) = secretKey s
  ∧ List.filter is_secret_call (new_calls s (snd (handler w event s))) = []
  ∧ (fst (handler w event s) = Rejected TypeError
     ∨ ∃ r, fst (handler w event s) = Resolved r)
  ∧ (isAlb_throws event = false →
     (∀ err, fails_with w (secretKey s) event err →
             thrown_properties err ≠ None) →
     ∃ r s', handler w event s = (Resolved r, s')).
Proof.
  intros Hoff.
  assert (Hnoop : ensureSecretKeyLoaded w s = (Resolved tt, s)).
  { rewrite ensureSecretKeyLoaded_eq, Hoff. simpl.
    by destruct (truthy (secretKey s)). }
  split; [|split; [|split]].
  - by rewrite handler_secret_effect, Hnoop.
  - rewrite handler_new_calls. unfold expected_calls.
    rewrite Hoff, orb_true_r. apply pipeline_no_secret_call.
  - rewrite handler_eq, Hnoop.
    destruct (isAlb_throws event); [by left|].
    destruct (process_request _ _ _ _ _) as [[r|err] s2]; [right; eauto|].
    rewrite handle_error_eq. cbv zeta.
    destruct (thrown_properties err); [right|by left].
    destruct (fallback_enabled (env w)); [destruct (fallback_fetch w)|];
      simpl; eauto.
  - intros Hingress Hthrown.
    by apply (handler_answers_after_secret w event s s).
Qed.

Lemma signing_disabled_never_loads_witness :
  secretKey (snd (handler fallback_world gateway_event initial_state))
  = JUndefined
  ∧ ∃ r s', handler fallback_world gateway_event initial_state
            = (Resolved r, s').
Proof.
  destruct (signing_disabled_never_loads fallback_world gateway_event
              initial_state eq_refl) as (Hkey & _ & _ & Hanswer).
  split; [exact Hkey|]. apply Hanswer; [reflexivity|].
  intros err [Hsetup|(request & Hsetup & _)]; [|discriminate].
  injection Hsetup as <-. discriminate.
Defined.

(** ** Status codes and header names of the responses *)

(** X13: every response has a truthy status code: 200 after successful
    processing, and after a failure the status of the failure if that is
    truthy and 500 if not.  Whether the fallback image or the JSON error is
    returned makes no difference to the status. *)
Theorem response_status (w : World) (event : jsobj) (s s' : State)
    (r : Response.t) :
  handler w event s = (Resolved r, s') →
  truthy (Response.statusCode r) = true
  ∧ ∃ s1, ensureSecretKeyLoaded w s = (Resolved tt, s1)
      ∧ ((∃ request image,
            setup w (secretKey s1) event = Resolved request
            ∧ process w request = Resolved image
            ∧ Response.statusCode r = JNum 200)
         ∨ (∃ err properties,
              fails_with w (secretKey s1) event err
              ∧ thrown_properties err = Some properties
              ∧ Response.statusCode r
                = if truthy (get_prop properties "status")
                  then get_prop properties "status" else JNum 500)).
Proof.
  intros Hr. apply handler_response in Hr
    as (s1 & Hsecret & _
        & [(request & image & Hsetup & Hprocess & ->)
          |(err & properties & Hfail & Herr
            & [(image & _ & _ & ->)|[_ ->]])]).
  - split; [reflexivity|]. exists s1. split; [done|]. left. eauto.
  - split.
    + unfold fallback_response. simpl.
      by destruct (truthy (get_prop properties "status")) eqn:Hstatus.
    + exists s1. split; [done|]. right. eauto.
  - split.
    + unfold error_response.
      by destruct (truthy (get_prop properties "status")) eqn:Hstatus.
    + exists s1. split; [done|]. right. exists err, properties.
      split; [done|]. split; [done|].
      unfold error_response.
      by destruct (truthy (get_prop properties "status")).
Qed.

Lemma response_status_witness :
  ∃ r s', handler fallback_world gateway_event initial_state = (Resolved r, s')
    ∧ truthy (Response.statusCode r) = true.
Proof.
  run_handler r s' Hr.
  exists r, s'. split; [exact Hr|].
  exact (proj1 (response_status _ _ _ _ _ Hr)).
Defined.

Lemma metadata_headers_dom (request : Request.t) :
  dom (metadata_headers request)
  = ({["Content-Type"; "Expires"; "Last-Modified"; "Cache-Control"]}
     : gset string).
Proof.
  unfold metadata_headers. rewrite !dom_insert_L, dom_empty_L. set_solver.
Qed.

(** X14: the header names of a success response are the composed names,
    the four metadata names, and the names of the custom headers other
    than [__proto__].  Custom headers add and overwrite; they cannot take
    a header away, and a metadata header is there even when the request
    leaves its value undefined. *)
Theorem success_response_keys (w : World) (alb : bool) (request : Request.t)
    (image : string) :
  dom (Response.headers (success_response w alb request image))
  = composed_keys (env w) false alb
    ∪ {["Content-Type"; "Expires"; "Last-Modified"; "Cache-Control"]}
    ∪ (dom (custom_headers request) ∖ {["__proto__"]}).
Proof.
  rewrite success_response_headers, !dom_union_L, dom_delete_L.
  rewrite metadata_headers_dom.
  rewrite getResponseHeaders_dom. unfold composed_keys.
  destruct alb, (env_is_yes (env w) "CORS_ENABLED");
    set_unfold; intros key; tauto.
Qed.

(** X15: the fallback response carries the composed names and
    Content-Type, Last-Modified and Cache-Control, and nothing else: no
    Expires, and none of the custom headers of the request that failed.
    A JSON error response carries the names composed in error mode and
    nothing else. *)
Theorem failure_response_keys (w : World) (alb : bool) (err : jsobj)
    (image : S3Object.t) :
  dom (Response.headers (fallback_response w alb err image))
  = composed_keys (env w) false alb
    ∪ {["Content-Type"; "Last-Modified"; "Cache-Control"]}
  ∧ Response.headers (fallback_response w alb err image) !! "Expires" = None
  ∧ dom (Response.headers (error_response w alb err))
    = composed_keys (env w) true alb.
Proof.
  rewrite fallback_response_headers, error_response_headers.
  pose proof (getResponseHeaders_dom (env w) false alb) as Hsuccess.
  pose proof (getResponseHeaders_dom (env w) true alb) as Herror.
  split; [|split; [|exact Herror]].
  - rewrite !dom_insert_L, Hsuccess. clear.
    apply set_eq. intros key. set_unfold. tauto.
  - rewrite !lookup_insert_ne by done. apply not_elem_of_dom.
    rewrite Hsuccess. unfold composed_keys. clear.
    destruct alb, (env_is_yes (env w) "CORS_ENABLED");
      set_unfold; intuition discriminate.
Qed.
